(** * IdsWebTool: the archive builder, the directory locator and the message
    router of [main.js], embedded as functions over an explicit world.

    The process is single threaded: every piece of JavaScript below runs to
    completion once it is entered.  What the outside decides (the files on
    disk, what the child processes print and in which order they finish,
    which peers are connected) is read from a [world] record; what the code
    does to the outside (starting a child process, sending on a socket) is
    returned as a list of [event]s. *)

From Stdlib Require Import Strings.Ascii.
From stdpp Require Import base strings list gmap sets.

Set Warnings "-register-all".
Open Scope string_scope.

(** ** JavaScript strings *)

Module JsString.

(** [s.startsWith(p)], used by [includes] below. *)
Fixpoint startsWith (s p : string) {struct p} : bool :=
  match p, s with
  | EmptyString, _ => true
  | String a p', String b s' => bool_decide (a = b) && startsWith s' p'
  | String _ _, EmptyString => false
  end.

(** [s.includes(needle)]: [needle] occurs at some position of [s]. *)
Fixpoint includes (s needle : string) : bool :=
  startsWith s needle ||
  match s with
  | EmptyString => false
  | String _ s' => includes s' needle
  end.

(** [s.endsWith(suffix)]. *)
Fixpoint endsWith (s suffix : string) : bool :=
  bool_decide (s = suffix) ||
  match s with
  | EmptyString => false
  | String _ s' => endsWith s' suffix
  end.

(** [s.split(sep)] for a separator of at least one character.  [skip]
    counts the characters of a separator that are still to be dropped and
    [cur] is the piece being read. *)
Fixpoint split_from (sep : string) (skip : nat) (cur s : string) : list string :=
  match s with
  | EmptyString => [cur]
  | String c s' =>
      match skip with
      | S k => split_from sep k cur s'
      | O =>
          if startsWith s sep
          then cur :: split_from sep (String.length sep - 1) EmptyString s'
          else split_from sep 0 (cur +:+ String c EmptyString) s'
      end
  end.

Definition split (s sep : string) : list string :=
  split_from sep 0 EmptyString s.

End JsString.

Export JsString.

(** ** JavaScript values, as [JSON.parse] and property reads produce them *)

(** A number is carried as the text [Number.prototype.toString] gives it;
    nothing in the program computes with numbers. *)
Inductive value : Type :=
  | VUndefined
  | VNull
  | VBool (b : bool)
  | VNum (repr : string)
  | VStr (s : string)
  | VArr (items : list value)
  | VObj (fields : gmap string value).

(** A thrown [Error], by its [message]. *)
Inductive result (A : Type) : Type :=
  | Ok (a : A)
  | Throw (message : string).
Arguments Ok {A} a.
Arguments Throw {A} message.

#[global] Instance result_ret : MRet result := @Ok.
#[global] Instance result_bind : MBind result := fun A B f r =>
  match r with
  | Ok a => f a
  | Throw m => Throw m
  end.

(** [arr.forEach(f)] where [f] updates a state [s] and may throw. *)
Fixpoint forEach {A S : Type} (f : S -> A -> result S) (l : list A) (s : S)
  : result S :=
  match l with
  | [] => Ok s
  | x :: l' => s' ← f s x; forEach f l' s'
  end.

(** Truthiness, as [if (v)] and [a && v] test it. *)
Definition truthy (v : value) : bool :=
  match v with
  | VUndefined | VNull => false
  | VBool b => b
  | VNum repr => negb (bool_decide (repr = "0")) && negb (bool_decide (repr = "NaN"))
  | VStr s => negb (bool_decide (s = ""))
  | VArr _ | VObj _ => true
  end.

(** [v === s] for a string literal [s]. *)
Definition strict_eq_str (v : value) (s : string) : bool :=
  match v with
  | VStr s' => bool_decide (s' = s)
  | _ => false
  end.

(** [data.key] for the four keys the router reads ([type], [filePath],
    [action], [deviceName]); none of them is a property of a primitive or of
    an array, and reading a property of [null] throws. *)
Definition prop (data : value) (key : string) : result value :=
  match data with
  | VNull | VUndefined => Throw "Cannot read properties of null"
  | VObj fields => Ok (default VUndefined (fields !! key))
  | _ => Ok VUndefined
  end.

Definition join_with (sep : string) (parts : list string) : string :=
  match parts with
  | [] => ""
  | p :: ps => fold_left (fun acc q => acc +:+ sep +:+ q) ps p
  end.

(** [String(v)], the conversion [includes] applies to its argument.  An
    object parsed from JSON converts through [Object.prototype.toString]
    unless it has a property of its own named [toString], which is then not
    callable and makes the conversion throw. *)
Fixpoint ToString (v : value) : result string :=
  match v with
  | VUndefined => Ok "undefined"
  | VNull => Ok "null"
  | VBool true => Ok "true"
  | VBool false => Ok "false"
  | VNum repr => Ok repr
  | VStr s => Ok s
  | VArr items =>
      parts ← forEach (fun acc x =>
                 match x with
                 | VUndefined | VNull => Ok (acc ++ [""])%list
                 | _ => s ← ToString x; Ok (acc ++ [s])%list
                 end) items [];
      Ok (join_with "," parts)
  | VObj fields =>
      match fields !! "toString" with
      | Some _ => Throw "Cannot convert object to primitive value"
      | None => Ok "[object Object]"
      end
  end.

(** ** The world outside the process *)

(** What a path names on disk.  A directory lists the names directly inside
    it, each of them once.  [Denied] is anything that exists but whose read
    fails with the given message. *)
Inductive node : Type :=
  | File (content : string)
  | Dir (entries : gset string)
  | Denied (err : string).

Inductive readyState : Type := CONNECTING | OPEN | CLOSING | CLOSED.

#[global] Instance readyState_eq_dec : EqDecision readyState.
Proof. solve_decision. Defined.

Definition peer : Type := nat.

(** What [exec] hands to its callback. *)
Record exec_result : Type := {
  error : bool;
  stdout : string;
}.

Record world : Type := {
  (** the file system, by full path *)
  disk : gmap string node;
  (** [Some m] when writing or finalising the archive fails with [m] *)
  finalize_error : option string;
  (** [wss.clients] with their state when the archive is sent *)
  clients : list (peer * readyState);
  (** [os.homedir()] *)
  homedir : string;
  (** what [where /r dir fileName] gives *)
  where_r : string -> string -> exec_result;
  (** the order in which the probes finish, by position in the
      directory list *)
  completion : list nat;
  (** what the PowerShell scan for [fileName] gives *)
  get_childitem : string -> exec_result;
}.

(** [path.join(a, b)] on segments that are already normalised: the parts
    are put together with one separator. *)
Definition path_join (a b : string) : string := a +:+ "/" +:+ b.

(** [path.join] refuses an argument that is not a string. *)
Definition path_join_v (a : value) (b : string) : result string :=
  match a with
  | VStr s => Ok (path_join s b)
  | _ => Throw "The path argument must be of type string"
  end.

Definition existsSync (d : gmap string node) (p : string) : bool :=
  bool_decide (is_Some (d !! p)).

Definition readdirSync (d : gmap string node) (p : string) : result (list string) :=
  match d !! p with
  | Some (Dir entries) => Ok (elements entries)
  | Some (File _) => Throw "ENOTDIR: not a directory"
  | Some (Denied err) => Throw err
  | None => Throw "ENOENT: no such file or directory"
  end.

Definition readFileSync (d : gmap string node) (p : string) : result string :=
  match d !! p with
  | Some (File content) => Ok content
  | Some (Dir _) => Throw "EISDIR: illegal operation on a directory"
  | Some (Denied err) => Throw err
  | None => Throw "ENOENT: no such file or directory"
  end.

(** ** ArchiveBuilder *)

(** One [archive.file(filePath, { name })] call. *)
Record entry : Type := {
  entry_src : string;
  entry_name : string;
}.

#[global] Instance entry_eq_dec : EqDecision entry.
Proof. solve_decision. Defined.

(** The body of the [forEach] callback of [addFilteredFilesToArchive]. *)
Definition add_file (w : world) (dirPath folder : string) (deviceName : value)
    (archive : list entry) (file : string) : result (list entry) :=
  let filePath := path_join dirPath file in
  content ← readFileSync (disk w) filePath;
  if bool_decide (folder = "temp") then
    Ok (archive ++ [{| entry_src := filePath; entry_name := path_join folder file |}])%list
  else if bool_decide (folder = "out") || bool_decide (folder = "_inputs_severin/tables") then
    needle ← ToString deviceName;
    if includes file needle then
      Ok (archive ++ [{| entry_src := filePath; entry_name := path_join folder file |}])%list
    else Ok archive
  else Ok archive.

Definition addFilteredFilesToArchive (w : world) (baseDir : value)
    (folder extension : string) (deviceName : value) (archive : list entry)
  : result (list entry) :=
  dirPath ← path_join_v baseDir folder;
  if existsSync (disk w) dirPath then
    files ← readdirSync (disk w) dirPath;
    forEach (add_file w dirPath folder deviceName)
            (filter (fun file => endsWith file extension) files) archive
  else Ok archive.

(** [archive.finalize()]. *)
Definition finalize (w : world) (archive : list entry) : result (list entry) :=
  match finalize_error w with
  | Some m => Throw m
  | None => Ok archive
  end.

(** The [try] block of [createAndSendZip]: the entries of the finished
    archive, or the error that ends the block. *)
Definition zip_entries (w : world) (baseDir deviceName : value)
  : result (list entry) :=
  outputPath ← path_join_v baseDir "filtered-archive.zip";
  a ← addFilteredFilesToArchive w baseDir "out" ".txt" deviceName [];
  a ← addFilteredFilesToArchive w baseDir "_inputs_severin/tables" ".txt" deviceName a;
  a ← addFilteredFilesToArchive w baseDir "temp" ".net" deviceName a;
  finalize w a.

(** ** What the process does to the outside *)

Inductive reply : Type :=
  | Status (ok : bool) (message : string)
  | FileFound (fileName : string) (directory : value)
  | FileNotFound (fileName : string).

Inductive payload : Type :=
  | Text (r : reply)
  | Binary (zip : list entry).

Inductive command : Type :=
  | Where (dir fileName : string)
  | GetChildItem (fileName : string).

Inductive event : Type :=
  | Exec (cmd : command)
  | Job (baseDir deviceName : value)
  | Send (to : peer) (p : payload).

(** The [close] handler of the output stream: the archive goes to every
    client that is open. *)
Definition broadcast (w : world) (zip : list entry) : list event :=
  (fun c => Send c.1 (Binary zip)) <$>
    filter (fun c => c.2 = OPEN) (clients w).

Record build_result : Type := {
  success : bool;
  message : string;
}.

(** [Job] records that the function was entered and with what.  The archive
    is sent from the [close] handler of the output stream; the source does
    not fix where these sends fall relative to what the caller does after
    its [await], and no statement below depends on it. *)
Definition createAndSendZip (w : world) (baseDir deviceName : value)
  : list event * build_result :=
  match zip_entries w baseDir deviceName with
  | Ok zip =>
      (Job baseDir deviceName :: broadcast w zip,
       {| success := true;
          message := "Filtered ZIP successfully created and sent." |})
  | Throw m =>
      ([Job baseDir deviceName], {| success := false; message := m |})
  end.

(** ** The parts of Node the program calls and the model leaves open *)

Record runtime : Type := {
  (** [JSON.parse(message)]: the parsed value, or the [SyntaxError] *)
  JSON_parse : string -> result value;
  (** [String.prototype.trim] *)
  trim : string -> string;
  (** [path.dirname] *)
  dirname : string -> string;
}.

Definition LF : string := String (Ascii.ascii_of_nat 10) EmptyString.
Definition CRLF : string := String (Ascii.ascii_of_nat 13) LF.

(** ** DirectoryLocator *)

Definition getCommonDirectories (w : world) : list string :=
  let userDir := homedir w in
  [ path_join userDir "Desktop";
    path_join userDir "Downloads";
    path_join userDir "Documents";
    "C:\Program Files";
    "C:\Program Files (x86)";
    "C:\" ].

(** The two variables the probe callbacks of [findInCommonDirs] share. *)
Record locate_state : Type := {
  foundPath : value;
  checked : nat;
}.

(** [stdout.split(sep)[0]]. *)
Definition first_piece (s sep : string) : string :=
  default "" (head (split s sep)).

(** One probe callback: the state it leaves, and the value it hands to
    [callback] when it is the one that brings [checked] to [total]. *)
Definition probe_done (rt : runtime) (total : nat) (st : locate_state)
    (r : exec_result) : locate_state * option value :=
  let checked' := S (checked st) in
  let foundPath' :=
    if negb (error r) && truthy (VStr (trim rt (stdout r)))
    then VStr (dirname rt (trim rt (first_piece (stdout r) LF)))
    else foundPath st in
  ({| foundPath := foundPath'; checked := checked' |},
   if bool_decide (checked' = total) then Some foundPath' else None).

(** The probe callbacks run one after the other, in the order in which the
    child processes finish. *)
Fixpoint run_probes (rt : runtime) (total : nat) (callback : value -> list event)
    (finished : list exec_result) (st : locate_state) : list event :=
  match finished with
  | [] => []
  | r :: rest =>
      let '(st', fire) := probe_done rt total st r in
      match fire with
      | Some v => callback v
      | None => []
      end ++ run_probes rt total callback rest st'
  end.

(** The outputs of the probes in the order of [completion w]; a position
    that names no directory names no probe. *)
Definition finished_probes (w : world) (directories : list string)
    (fileName : string) : list exec_result :=
  omap (fun i => (fun dir => where_r w dir fileName) <$> directories !! i)
       (completion w).

Definition findInCommonDirs (rt : runtime) (w : world) (fileName : string)
    (callback : value -> list event) : list event :=
  let directories := getCommonDirectories w in
  ((fun dir => Exec (Where dir fileName)) <$> directories) ++
  run_probes rt (length directories) callback
    (finished_probes w directories fileName)
    {| foundPath := VNull; checked := 0 |}.

Definition findFileOnDisk (rt : runtime) (w : world) (fileName : string)
    (callback : value -> list event) : list event :=
  Exec (GetChildItem fileName) ::
  let r := get_childitem w fileName in
  if error r then callback VNull
  else
    let files := filter (fun f => truthy (VStr f))
                        (split (trim rt (stdout r)) CRLF) in
    callback match files with
             | f :: _ => VStr (dirname rt f)
             | [] => VNull
             end.

(** ** MessageRouter *)

Definition handleDeviceNameAction (rt : runtime) (w : world)
    (deviceName : value) (ws : peer) : list event :=
  let fileName := "ASMP start.bat" in
  findInCommonDirs rt w fileName (fun directory =>
    if truthy directory then
      Send ws (Text (FileFound fileName directory)) ::
      (createAndSendZip w directory deviceName).1
    else
      findFileOnDisk rt w fileName (fun fullPath =>
        if truthy fullPath then
          Send ws (Text (FileFound fileName fullPath)) ::
          (createAndSendZip w fullPath deviceName).1
        else
          [Send ws (Text (FileNotFound fileName))])).

(** The [try] block of [handleWebSocketMessage]; every event of a branch
    comes after the last point of that branch that can throw. *)
Definition route (rt : runtime) (w : world) (msg : string) (ws : peer)
  : result (list event) :=
  data ← JSON_parse rt msg;
  type ← prop data "type";
  if strict_eq_str type "filePath" then
    filePath ← prop data "filePath";
    let '(sent, result) := createAndSendZip w filePath VNull in
    Ok (sent ++
        [Send ws (Text (Status (success result) (message result)))])%list
  else
    action ← prop data "action";
    if strict_eq_str action "sendDeviceName" then
      deviceName ← prop data "deviceName";
      if truthy deviceName
      then Ok (handleDeviceNameAction rt w deviceName ws)
      else Ok []
    else Ok [].

Definition handleWebSocketMessage (rt : runtime) (w : world)
    (msg : string) (ws : peer) : list event :=
  match route rt w msg ws with
  | Ok events => events
  | Throw m => [Send ws (Text (Status false m))]
  end.

(** ** Vocabulary of the statements *)

(** [d] occurs in [s] as a literal substring. *)
Definition is_substring (d s : string) : Prop :=
  exists a b, s = a +:+ d +:+ b.

Definition has_suffix (suffix s : string) : Prop :=
  exists a, s = a +:+ suffix.

(** [file] is listed directly inside [base/folder]. *)
Definition in_folder (w : world) (base folder file : string) : Prop :=
  exists entries,
    disk w !! path_join base folder = Some (Dir entries) /\ file ∈ entries.

(** The entry [addFilteredFilesToArchive] writes for [file] of [folder]. *)
Definition entry_of (base folder file : string) : entry :=
  {| entry_src := path_join (path_join base folder) file;
     entry_name := path_join folder file |}.

Definition archived (zip : list entry) (base folder file : string) : Prop :=
  entry_of base folder file ∈ zip.

(** The three calls [createAndSendZip] makes, as folder and extension. *)
Definition rules : list (string * string) :=
  [ ("out", ".txt"); ("_inputs_severin/tables", ".txt"); ("temp", ".net") ].

(** Whether the callback of [addFilteredFilesToArchive] adds [file], once
    the file has been read. *)
Definition selected (folder : string) (deviceName : value) (file : string) : bool :=
  if bool_decide (folder = "temp") then true
  else if bool_decide (folder = "out") || bool_decide (folder = "_inputs_severin/tables") then
    match ToString deviceName with
    | Ok needle => includes file needle
    | Throw _ => false
    end
  else false.

(** What one rule contributes to an archive that gets built. *)
Definition rule_entries (w : world) (base folder extension : string)
    (deviceName : value) : list entry :=
  match disk w !! path_join base folder with
  | Some (Dir entries) =>
      entry_of base folder <$>
        filter (fun file => selected folder deviceName file)
          (filter (fun file => endsWith file extension) (elements entries))
  | _ => []
  end.

(** Nothing stands in the way of a build under [base]: each rule folder is
    absent or a directory whose files with the rule's extension can be read,
    and the archive can be written. *)
Definition readable_folder (w : world) (base folder extension : string) : Prop :=
  disk w !! path_join base folder = None
  \/ exists entries,
       disk w !! path_join base folder = Some (Dir entries)
       /\ forall file,
            file ∈ entries -> endsWith file extension = true ->
            exists content,
              disk w !! path_join (path_join base folder) file
              = Some (File content).

Definition buildable (w : world) (base : string) : Prop :=
  finalize_error w = None
  /\ forall folder extension,
       (folder, extension) ∈ rules -> readable_folder w base folder extension.

(** A probe found something: the test of the probe callback. *)
Definition probe_match (rt : runtime) (r : exec_result) : bool :=
  negb (error r) && truthy (VStr (trim rt (stdout r))).

(** The directory a matching probe stores in [foundPath]. *)
Definition probe_dir (rt : runtime) (r : exec_result) : value :=
  VStr (dirname rt (trim rt (first_piece (stdout r) LF))).

(** What [foundPath] holds after the callbacks of [finished] have run. *)
Definition last_found (rt : runtime) (found : value) (finished : list exec_result)
  : value :=
  fold_left (fun acc r => if probe_match rt r then probe_dir rt r else acc)
            finished found.

Definition probes_started (w : world) (fileName : string) : list event :=
  (fun dir => Exec (Where dir fileName)) <$> getCommonDirectories w.

(** The probe started for the directory at position [i]. *)
Definition probe (w : world) (fileName : string) (i : nat) : exec_result :=
  where_r w (default "" (getCommonDirectories w !! i)) fileName.

Definition with_completion (w : world) (order : list nat) : world :=
  {| disk := disk w; finalize_error := finalize_error w; clients := clients w;
     homedir := homedir w; where_r := where_r w; completion := order;
     get_childitem := get_childitem w |}.


Definition is_status (e : event) : bool :=
  match e with
  | Send _ (Text (Status _ _)) => true
  | _ => false
  end.

Definition is_binary (e : event) : bool :=
  match e with
  | Send _ (Binary _) => true
  | _ => false
  end.

(** What handling a device request may do: start child processes, tell the
    requesting peer what the search gave, enter a build with the device name
    of the request, and send archives. *)
Definition device_event (deviceName : value) (ws : peer) (e : event) : Prop :=
  match e with
  | Exec _ => True
  | Job _ d => d = deviceName
  | Send to (Text (Status _ _)) => False
  | Send to (Text _) => to = ws
  | Send _ (Binary _) => True
  end.

(** What the callbacks of the search may do: as above, without starting the
    probes or the scan. *)
Definition after_search_event (deviceName : value) (ws : peer) (e : event) : Prop :=
  match e with
  | Exec _ => False
  | _ => device_event deviceName ws e
  end.

(** [data.key] where it cannot throw. *)
Definition field (data : value) (key : string) : value :=
  match prop data key with
  | Ok v => v
  | Throw _ => VUndefined
  end.

Definition nullish (data : value) : bool :=
  match data with
  | VNull | VUndefined => true
  | _ => false
  end.

(** The two shapes the router acts on, by the tests it makes. *)
Definition direct_path_shape (data : value) : bool :=
  strict_eq_str (field data "type") "filePath".

Definition device_name_shape (data : value) : bool :=
  strict_eq_str (field data "action") "sendDeviceName"
  && truthy (field data "deviceName").

(** ** Sample worlds and messages *)

Module Sample.

Definition quoted (s : string) : string :=
  String (Ascii.ascii_of_nat 34) s +:+ String (Ascii.ascii_of_nat 34) EmptyString.

(** [{"type":"filePath","filePath":"/d"}] *)
Definition direct_path_message : string :=
  "{" +:+ quoted "type" +:+ ":" +:+ quoted "filePath" +:+ ","
      +:+ quoted "filePath" +:+ ":" +:+ quoted "/d" +:+ "}".

(** [{"action":"sendDeviceName","deviceName":"DEV1"}] *)
Definition device_message : string :=
  "{" +:+ quoted "action" +:+ ":" +:+ quoted "sendDeviceName" +:+ ","
      +:+ quoted "deviceName" +:+ ":" +:+ quoted "DEV1" +:+ "}".

(** The device request whose [deviceName] is the empty string. *)
Definition empty_device_message : string :=
  "{" +:+ quoted "action" +:+ ":" +:+ quoted "sendDeviceName" +:+ ","
      +:+ quoted "deviceName" +:+ ":" +:+ quoted "" +:+ "}".

(** [JSON.parse] on the messages used below; anything else is taken to be
    malformed. *)
Definition parse (msg : string) : result value :=
  if bool_decide (msg = direct_path_message) then
    Ok (VObj {[ "type" := VStr "filePath"; "filePath" := VStr "/d" ]})
  else if bool_decide (msg = device_message) then
    Ok (VObj {[ "action" := VStr "sendDeviceName"; "deviceName" := VStr "DEV1" ]})
  else if bool_decide (msg = empty_device_message) then
    Ok (VObj {[ "action" := VStr "sendDeviceName"; "deviceName" := VStr "" ]})
  else if bool_decide (msg = "null") then Ok VNull
  else if bool_decide (msg = "5") then Ok (VNum "5")
  else Throw "Unexpected token in JSON".

(** Paths with [/] as separator and outputs without blanks around them:
    [trim] has nothing to remove, and [dirname] cuts at the last [/]. *)
Fixpoint cut_last (s : string) : option string :=
  match s with
  | EmptyString => None
  | String c s' =>
      match cut_last s' with
      | Some d => Some (String c d)
      | None => if bool_decide (c = "/"%char) then Some EmptyString else None
      end
  end.

Definition rt : runtime :=
  {| JSON_parse := parse;
     trim := fun s => s;
     dirname := fun p => match cut_last p with
                         | Some EmptyString => "/"
                         | Some d => d
                         | None => "."
                         end |}.

Definition files : gmap string node :=
  {[ "/d/out" := Dir {[ "DEV1-a.txt"; "DEV2-b.txt" ]};
     "/d/out/DEV1-a.txt" := File "a";
     "/d/out/DEV2-b.txt" := File "b";
     "/d/temp" := Dir {[ "x.net" ]};
     "/d/temp/x.net" := File "x" ]}.

Definition nothing : exec_result := {| error := true; stdout := "" |}.

Definition printed (s : string) : exec_result := {| error := false; stdout := s |}.

(** The installation is under the root only: one probe matches. *)
Definition w : world :=
  {| disk := files;
     finalize_error := None;
     clients := [(1, OPEN); (2, CLOSED)];
     homedir := "C:/Users/u";
     where_r := fun dir _ =>
       if bool_decide (dir = "C:\") then printed "/d/ASMP start.bat" else nothing;
     completion := [5; 0; 3; 1; 4; 2];
     get_childitem := fun _ => nothing |}.

(** As [w], with the second file of [out] unreadable. *)
Definition w_unreadable : world :=
  {| disk := <[ "/d/out/DEV2-b.txt" := Denied "EACCES: permission denied" ]> files;
     finalize_error := None;
     clients := clients w;
     homedir := homedir w;
     where_r := where_r w;
     completion := completion w;
     get_childitem := get_childitem w |}.

(** As [w], with other files in [out], one of them with [null] in its
    name. *)
Definition w_null : world :=
  {| disk := <[ "/d/out" := Dir {[ "report.txt"; "null-report.txt" ]} ]>
             (<[ "/d/out/report.txt" := File "r" ]>
              (<[ "/d/out/null-report.txt" := File "n" ]> files));
     finalize_error := None;
     clients := clients w;
     homedir := homedir w;
     where_r := where_r w;
     completion := completion w;
     get_childitem := get_childitem w |}.

(** Two probes match, in [Desktop] and under the root. *)
Definition w_two : world :=
  {| disk := files;
     finalize_error := None;
     clients := clients w;
     homedir := homedir w;
     where_r := fun dir _ =>
       if bool_decide (dir = "C:\") then printed "/d/ASMP start.bat"
       else if bool_decide (dir = "C:/Users/u/Desktop") then printed "/e/ASMP start.bat"
       else nothing;
     completion := [0; 1; 2; 3; 4; 5];
     get_childitem := fun _ => nothing |}.

(** Nothing is found anywhere. *)
Definition w_none : world :=
  {| disk := files;
     finalize_error := None;
     clients := clients w;
     homedir := homedir w;
     where_r := fun _ _ => nothing;
     completion := [2; 1; 0; 5; 4; 3];
     get_childitem := fun _ => nothing |}.

End Sample.

(** ** Vocabulary of the further properties *)

Definition is_probe (e : event) : bool :=
  match e with
  | Exec (Where _ _) => true
  | _ => false
  end.

Definition is_exec (e : event) : bool :=
  match e with
  | Exec _ => true
  | _ => false
  end.

Definition is_job (e : event) : bool :=
  match e with
  | Job _ _ => true
  | _ => false
  end.

(** The replies that tell how the search ended. *)
Definition is_search_reply (e : event) : bool :=
  match e with
  | Send _ (Text (FileFound _ _)) => true
  | Send _ (Text (FileNotFound _)) => true
  | _ => false
  end.

Definition is_string (v : value) : bool :=
  match v with
  | VStr _ => true
  | _ => false
  end.

(** The lines of the scan output that [filter(Boolean)] keeps. *)
Definition scan_lines (rt : runtime) (r : exec_result) : list string :=
  filter (fun f => truthy (VStr f)) (split (trim rt (stdout r)) CRLF).

Module Cases.

(** A direct-path message without a [filePath]. *)
Definition bare_message : string :=
  "{" +:+ Sample.quoted "type" +:+ ":" +:+ Sample.quoted "filePath" +:+ "}".

(** A device request that also says [type: filePath], with [/d] as path. *)
Definition mixed_message : string :=
  "{" +:+ Sample.quoted "type" +:+ ":" +:+ Sample.quoted "filePath" +:+ ","
      +:+ Sample.quoted "filePath" +:+ ":" +:+ Sample.quoted "/d" +:+ ","
      +:+ Sample.quoted "action" +:+ ":" +:+ Sample.quoted "sendDeviceName" +:+ ","
      +:+ Sample.quoted "deviceName" +:+ ":" +:+ Sample.quoted "DEV1" +:+ "}".

Definition parse (msg : string) : result value :=
  if bool_decide (msg = bare_message) then
    Ok (VObj {[ "type" := VStr "filePath" ]})
  else if bool_decide (msg = mixed_message) then
    Ok (VObj {[ "type" := VStr "filePath"; "filePath" := VStr "/d";
                "action" := VStr "sendDeviceName"; "deviceName" := VStr "DEV1" ]})
  else Sample.parse msg.

Definition rt : runtime :=
  {| JSON_parse := parse; trim := trim Sample.rt; dirname := dirname Sample.rt |}.

(** No probe matches and the scan prints two paths. *)
Definition w_scan : world :=
  {| disk := Sample.files;
     finalize_error := None;
     clients := clients Sample.w;
     homedir := homedir Sample.w;
     where_r := fun _ _ => Sample.nothing;
     completion := [3; 4; 5; 0; 1; 2];
     get_childitem := fun _ =>
       Sample.printed ("/d/ASMP start.bat" +:+ CRLF +:+ "/z/ASMP start.bat") |}.

(** Nothing of an installation under [/e]. *)
Definition w_bare : world :=
  {| disk := ∅;
     finalize_error := None;
     clients := clients Sample.w;
     homedir := homedir Sample.w;
     where_r := where_r Sample.w;
     completion := completion Sample.w;
     get_childitem := get_childitem Sample.w |}.

(** [/d/out] is a file, not a directory. *)
Definition w_out_is_file : world :=
  {| disk := <[ "/d/out" := File "not a folder" ]> Sample.files;
     finalize_error := None;
     clients := clients Sample.w;
     homedir := homedir Sample.w;
     where_r := where_r Sample.w;
     completion := completion Sample.w;
     get_childitem := get_childitem Sample.w |}.

End Cases.

(** * Properties *)

Open Scope list_scope.

(** ** Strings *)

Lemma startsWith_spec (s p : string) :
  startsWith s p = true <-> exists t, s = p +:+ t.
Proof.
  revert s. induction p as [|a p IH]; intros s; simpl.
  - split; [intros _; by exists s | done].
  - destruct s as [|b s]; simpl.
    + split; [done | intros [t Ht]; discriminate].
    + rewrite andb_true_iff, bool_decide_eq_true, IH. split.
      * intros [-> [t ->]]. by exists t.
      * intros [t Ht]. injection Ht as -> ->. eauto.
Qed.

Lemma includes_spec (s d : string) :
  includes s d = true <-> is_substring d s.
Proof.
  unfold is_substring. induction s as [|c s IH]; simpl.
  - rewrite orb_false_r, startsWith_spec. split.
    + intros [t Ht]. exists "", t. done.
    + intros [a [b Hab]]. destruct a; simpl in Hab; [eauto | discriminate].
  - rewrite orb_true_iff, IH. split.
    + intros [H | [a [b ->]]].
      * apply startsWith_spec in H as [t Ht]. exists "", t. done.
      * by exists (String c a), b.
    + intros [a [b Hab]]. destruct a as [|c' a]; simpl in Hab.
      * left. apply startsWith_spec. eauto.
      * right. injection Hab as -> ->. eauto.
Qed.

Lemma endsWith_spec (s suffix : string) :
  endsWith s suffix = true <-> has_suffix suffix s.
Proof.
  unfold has_suffix. induction s as [|c s IH]; simpl.
  - rewrite orb_false_r, bool_decide_eq_true. split.
    + intros <-. by exists "".
    + intros [a Ha]. destruct a; [done | discriminate].
  - rewrite orb_true_iff, bool_decide_eq_true, IH. split.
    + intros [<- | [a ->]]; [by exists "" | by exists (String c a)].
    + intros [a Ha]. destruct a as [|c' a]; simpl in Ha.
      * by left.
      * right. injection Ha as -> ->. eauto.
Qed.

Lemma includes_empty (s : string) : includes s "" = true.
Proof. apply includes_spec. exists "", s. done. Qed.

Lemma append_inj_r (p a b : string) : p +:+ a = p +:+ b -> a = b.
Proof. induction p; simpl; [done | intros H; injection H; auto]. Qed.

Lemma path_join_inj_r (a b c : string) : path_join a b = path_join a c -> b = c.
Proof. unfold path_join. intros H. apply append_inj_r in H. by injection H. Qed.

(** ** The error monad *)

Lemma bind_Ok {A B : Type} (r : result A) (f : A -> result B) (b : B) :
  r ≫= f = Ok b <-> exists a, r = Ok a /\ f a = Ok b.
Proof.
  destruct r as [a|m]; simpl.
  - split; [eauto | by intros [a' [[= <-] H]]].
  - split; [done | by intros [a' [? _]]].
Qed.

Tactic Notation "inv_bind" hyp(H) "as" ident(a) ident(Ha) :=
  apply bind_Ok in H as [a [Ha H]].

(** ** ArchiveBuilder: what a build that succeeds has written *)

Section Builder.

Variable w : world.

Lemma add_file_ok (dirPath folder : string) (deviceName : value)
    (archive archive' : list entry) (file : string) :
  add_file w dirPath folder deviceName archive file = Ok archive' ->
  archive' =
    archive ++
    (if selected folder deviceName file
     then [{| entry_src := path_join dirPath file;
              entry_name := path_join folder file |}]
     else []).
Proof.
  unfold add_file, selected. intros H. inv_bind H as content Hread.
  destruct (bool_decide (folder = "temp")); [by injection H as <- |].
  destruct (bool_decide (folder = "out") || bool_decide (folder = "_inputs_severin/tables")).
  - destruct (ToString deviceName) as [needle|m]; [|done]. simpl in H.
    destruct (includes file needle); injection H as <-; [done | by rewrite app_nil_r].
  - injection H as <-. by rewrite app_nil_r.
Qed.

Lemma add_file_unreadable (dirPath folder : string) (deviceName : value)
    (archive : list entry) (file m : string) :
  readFileSync (disk w) (path_join dirPath file) = Throw m ->
  add_file w dirPath folder deviceName archive file = Throw m.
Proof. unfold add_file. by intros ->. Qed.

Lemma forEach_add_file_ok (dirPath folder : string) (deviceName : value)
    (files : list string) (archive archive' : list entry) :
  forEach (add_file w dirPath folder deviceName) files archive = Ok archive' ->
  archive' =
    archive ++
    ((fun file => {| entry_src := path_join dirPath file;
                     entry_name := path_join folder file |}) <$>
     filter (fun file => selected folder deviceName file) files).
Proof.
  revert archive. induction files as [|file files IH]; intros archive H; simpl in H.
  - injection H as <-. by rewrite app_nil_r.
  - inv_bind H as a Ha. apply add_file_ok in Ha as ->. apply IH in H as ->.
    rewrite filter_cons. destruct (selected folder deviceName file); simpl.
    + by rewrite <- app_assoc.
    + by rewrite app_nil_r.
Qed.

Lemma forEach_add_file_unreadable (dirPath folder : string) (deviceName : value)
    (files : list string) (archive : list entry) (file m : string) :
  file ∈ files ->
  readFileSync (disk w) (path_join dirPath file) = Throw m ->
  exists m', forEach (add_file w dirPath folder deviceName) files archive = Throw m'.
Proof.
  intros Hin Hread. revert archive.
  induction Hin as [file files | file file' files Hin IH]; intros archive; simpl.
  - rewrite (add_file_unreadable _ _ _ _ _ _ Hread). by exists m.
  - destruct (add_file w dirPath folder deviceName archive file') as [a|m']; simpl.
    + by apply IH.
    + by exists m'.
Qed.

Lemma addFilteredFilesToArchive_ok (base folder extension : string)
    (deviceName : value) (archive archive' : list entry) :
  addFilteredFilesToArchive w (VStr base) folder extension deviceName archive
    = Ok archive' ->
  archive' = archive ++ rule_entries w base folder extension deviceName.
Proof.
  unfold addFilteredFilesToArchive, rule_entries, existsSync, readdirSync.
  simpl. intros H.
  destruct (disk w !! path_join base folder) as [[content|entries|err]|] eqn:E.
  - rewrite bool_decide_eq_true_2 in H by eauto. done.
  - rewrite bool_decide_eq_true_2 in H by eauto. simpl in H.
    by apply forEach_add_file_ok in H.
  - rewrite bool_decide_eq_true_2 in H by eauto. done.
  - rewrite bool_decide_eq_false_2 in H by (by intros [? ?]).
    injection H as <-. by rewrite app_nil_r.
Qed.

Lemma zip_entries_ok (baseDir deviceName : value) (zip : list entry) :
  zip_entries w baseDir deviceName = Ok zip ->
  exists base,
    baseDir = VStr base /\
    zip = rule_entries w base "out" ".txt" deviceName
          ++ rule_entries w base "_inputs_severin/tables" ".txt" deviceName
          ++ rule_entries w base "temp" ".net" deviceName.
Proof.
  unfold zip_entries. intros H. inv_bind H as outputPath Hpath.
  destruct baseDir as [| | | |base| |]; try done. exists base. split; [done|].
  inv_bind H as a1 H1. inv_bind H as a2 H2. inv_bind H as a3 H3.
  apply addFilteredFilesToArchive_ok in H1 as ->.
  apply addFilteredFilesToArchive_ok in H2 as ->.
  apply addFilteredFilesToArchive_ok in H3 as ->.
  unfold finalize in H. destruct (finalize_error w); [done|].
  injection H as <-. by rewrite <- app_assoc.
Qed.

Lemma elem_of_rule_entries (base folder extension : string) (deviceName : value)
    (e : entry) :
  e ∈ rule_entries w base folder extension deviceName <->
  exists file,
    e = entry_of base folder file /\ in_folder w base folder file /\
    endsWith file extension = true /\ selected folder deviceName file = true.
Proof.
  unfold rule_entries, in_folder. split.
  - destruct (disk w !! path_join base folder) as [[content|entries|err]|];
      try by intros ?%elem_of_nil.
    intros (file & -> & Hin)%list_elem_of_fmap.
    apply list_elem_of_filter in Hin as [Hsel Hin].
    apply list_elem_of_filter in Hin as [Hext Hin].
    apply elem_of_elements in Hin.
    exists file. repeat split; eauto using Is_true_eq_true.
  - intros (file & -> & (entries & -> & Hin) & Hext & Hsel).
    apply list_elem_of_fmap. exists file. split; [done|].
    apply list_elem_of_filter. split; [by apply Is_true_eq_left|].
    apply list_elem_of_filter. split; [by apply Is_true_eq_left|].
    by apply elem_of_elements.
Qed.

End Builder.

(** ** ArchiveBuilder: membership *)

Lemma elem_of_rules (folder extension : string) :
  (folder, extension) ∈ rules <->
  (folder = "out" /\ extension = ".txt")
  \/ (folder = "_inputs_severin/tables" /\ extension = ".txt")
  \/ (folder = "temp" /\ extension = ".net").
Proof.
  unfold rules. rewrite !elem_of_cons, elem_of_nil.
  split.
  - intros [[= -> ->] | [[= -> ->] | [[= -> ->] | []]]]; auto.
  - intros [[-> ->] | [[-> ->] | [-> ->]]]; auto.
Qed.

(** The three folders are three name spaces: an entry name tells the folder
    and the file it was made from. *)
Lemma entry_name_inj (folder folder' extension extension' file file' : string) :
  (folder, extension) ∈ rules -> (folder', extension') ∈ rules ->
  path_join folder file = path_join folder' file' ->
  folder = folder' /\ extension = extension' /\ file = file'.
Proof.
  rewrite !elem_of_rules.
  intros [[-> ->] | [[-> ->] | [-> ->]]] [[-> ->] | [[-> ->] | [-> ->]]] H;
    try discriminate H; by apply path_join_inj_r in H.
Qed.

Lemma entry_of_in_rule_entries (w : world) (base : string) (deviceName : value)
    (folder extension folder' extension' file : string) :
  (folder, extension) ∈ rules -> (folder', extension') ∈ rules ->
  entry_of base folder file ∈ rule_entries w base folder' extension' deviceName ->
  in_folder w base folder file /\ endsWith file extension = true
  /\ selected folder deviceName file = true.
Proof.
  intros Hrule Hrule' (file' & Heq & Hin & Hext & Hsel)%elem_of_rule_entries.
  injection Heq as _ Hname.
  destruct (entry_name_inj _ _ _ _ _ _ Hrule Hrule' Hname) as (-> & -> & ->).
  done.
Qed.

Lemma archived_iff (w : world) (base : string) (deviceName : value)
    (zip : list entry) (folder extension file : string) :
  zip_entries w (VStr base) deviceName = Ok zip ->
  (folder, extension) ∈ rules ->
  archived zip base folder file <->
  in_folder w base folder file /\ endsWith file extension = true
  /\ selected folder deviceName file = true.
Proof.
  intros (base' & [= <-] & ->)%zip_entries_ok Hrule. unfold archived.
  rewrite !elem_of_app. split.
  - intros [H | [H | H]];
      (eapply entry_of_in_rule_entries; [done | | done]);
      apply elem_of_rules; auto.
  - intros (Hin & Hext & Hsel).
    apply elem_of_rules in Hrule as [[-> ->] | [[-> ->] | [-> ->]]];
      [left | right; left | right; right];
      apply elem_of_rule_entries; by exists file.
Qed.

Lemma zip_entries_shape (w : world) (base : string) (deviceName : value)
    (zip : list entry) (e : entry) :
  zip_entries w (VStr base) deviceName = Ok zip ->
  e ∈ zip ->
  exists folder extension file,
    (folder, extension) ∈ rules /\ e = entry_of base folder file.
Proof.
  intros (base' & [= <-] & ->)%zip_entries_ok.
  rewrite !elem_of_app, !elem_of_rule_entries.
  intros [H | [H | H]]; destruct H as (file & -> & _);
    eexists _, _, file; (split; [|done]); apply elem_of_rules; auto.
Qed.

Lemma selected_temp (deviceName : value) (file : string) :
  selected "temp" deviceName file = true.
Proof. done. Qed.

Lemma selected_filtered (folder d file : string) :
  folder = "out" \/ folder = "_inputs_severin/tables" ->
  selected folder (VStr d) file = includes file d.
Proof. by intros [-> | ->]. Qed.

(** ** ArchiveBuilder: when a build succeeds *)

Lemma add_file_readable (w : world) (dirPath folder : string)
    (deviceName : value) (needle : string) (archive : list entry)
    (file content : string) :
  ToString deviceName = Ok needle ->
  disk w !! path_join dirPath file = Some (File content) ->
  exists archive', add_file w dirPath folder deviceName archive file = Ok archive'.
Proof.
  intros Hneedle Hfile. unfold add_file, readFileSync.
  rewrite Hfile, Hneedle. simpl.
  destruct (bool_decide (folder = "temp")); [by eexists|].
  destruct (bool_decide (folder = "out") || bool_decide (folder = "_inputs_severin/tables"));
    [destruct (includes file needle)|]; by eexists.
Qed.

Lemma forEach_add_file_readable (w : world) (dirPath folder : string)
    (deviceName : value) (needle : string) (files : list string)
    (archive : list entry) :
  ToString deviceName = Ok needle ->
  (forall file, file ∈ files ->
     exists content, disk w !! path_join dirPath file = Some (File content)) ->
  exists archive',
    forEach (add_file w dirPath folder deviceName) files archive = Ok archive'.
Proof.
  intros Hneedle. revert archive.
  induction files as [|file files IH]; intros archive Hread; simpl; [by eexists|].
  destruct (Hread file) as [content Hfile]; [apply list_elem_of_here|].
  destruct (add_file_readable w dirPath folder deviceName needle archive file
              content Hneedle Hfile) as [archive' ->].
  simpl. apply IH. intros file' Hin. apply Hread. by apply list_elem_of_further.
Qed.

Lemma addFilteredFilesToArchive_readable (w : world) (base folder extension : string)
    (deviceName : value) (needle : string) (archive : list entry) :
  ToString deviceName = Ok needle ->
  readable_folder w base folder extension ->
  exists archive',
    addFilteredFilesToArchive w (VStr base) folder extension deviceName archive
    = Ok archive'.
Proof.
  intros Hneedle Hfolder.
  unfold addFilteredFilesToArchive, existsSync, readdirSync. simpl.
  destruct Hfolder as [-> | (entries & -> & Hread)].
  - rewrite bool_decide_eq_false_2 by (by intros [? ?]). by eexists.
  - rewrite bool_decide_eq_true_2 by eauto. simpl.
    apply forEach_add_file_readable with (needle := needle); [done|].
    intros file [Hext Hin]%list_elem_of_filter. apply Hread.
    + by apply elem_of_elements.
    + by apply Is_true_eq_true.
Qed.

Lemma zip_entries_buildable (w : world) (base : string) (deviceName : value)
    (needle : string) :
  ToString deviceName = Ok needle ->
  buildable w base ->
  exists zip, zip_entries w (VStr base) deviceName = Ok zip.
Proof.
  intros Hneedle [Hfinal Hfolders]. unfold zip_entries. simpl.
  destruct (addFilteredFilesToArchive_readable w base "out" ".txt"
              deviceName needle [] Hneedle) as [a1 ->].
  { apply Hfolders, elem_of_rules. auto. }
  simpl.
  destruct (addFilteredFilesToArchive_readable w base "_inputs_severin/tables"
              ".txt" deviceName needle a1 Hneedle) as [a2 ->].
  { apply Hfolders, elem_of_rules. auto. }
  simpl.
  destruct (addFilteredFilesToArchive_readable w base "temp" ".net"
              deviceName needle a2 Hneedle) as [a3 ->].
  { apply Hfolders, elem_of_rules. auto. }
  simpl. unfold finalize. rewrite Hfinal. by eexists.
Qed.

(** C1: the archive of a device-scoped job holds, under [out/] and
    [_inputs_severin/tables/], exactly the [.txt] files listed directly in
    those folders whose name contains the device identifier [d] as a literal
    substring; under [temp/] it holds every [.net] file whatever [d] is; and
    it holds nothing else.  Such an archive is produced whenever the files
    can be read and the archive written. *)
Theorem device_scoped_archive (w : world) (base d : string) (zip : list entry) :
  (buildable w base -> exists zip', zip_entries w (VStr base) (VStr d) = Ok zip') /\
  (zip_entries w (VStr base) (VStr d) = Ok zip ->
  (forall folder file,
     folder = "out" \/ folder = "_inputs_severin/tables" ->
     archived zip base folder file <->
     in_folder w base folder file /\ has_suffix ".txt" file /\ is_substring d file)
  /\ (forall file,
        archived zip base "temp" file <->
        in_folder w base "temp" file /\ has_suffix ".net" file)
  /\ (forall e, e ∈ zip ->
        exists folder file,
          (folder = "out" \/ folder = "_inputs_severin/tables" \/ folder = "temp")
          /\ e = entry_of base folder file)).
Proof.
  split; [by apply zip_entries_buildable with (needle := d)|].
  intros Hzip. split; [|split].
  - intros folder file Hfolder.
    rewrite (archived_iff _ _ _ _ folder ".txt" _ Hzip)
      by (apply elem_of_rules; destruct Hfolder; auto).
    by rewrite selected_filtered, endsWith_spec, includes_spec.
  - intros file.
    rewrite (archived_iff _ _ _ _ "temp" ".net" _ Hzip)
      by (apply elem_of_rules; auto).
    rewrite endsWith_spec, selected_temp. tauto.
  - intros e He.
    destruct (zip_entries_shape _ _ _ _ _ Hzip He)
      as (folder & extension & file & Hrule & ->).
    exists folder, file. split; [|done].
    apply elem_of_rules in Hrule. tauto.
Qed.

Lemma sample_buildable : buildable Sample.w "/d".
Proof.
  split; [done|]. intros folder extension.
  intros [[-> ->] | [[-> ->] | [-> ->]]]%elem_of_rules.
  - right. exists {[ "DEV1-a.txt"; "DEV2-b.txt" ]}. split; [by vm_compute|].
    intros file [->%elem_of_singleton | ->%elem_of_singleton]%elem_of_union _;
      eexists; by vm_compute.
  - left. by vm_compute.
  - right. exists {[ "x.net" ]}. split; [by vm_compute|].
    intros file ->%elem_of_singleton _. eexists; by vm_compute.
Qed.

Lemma device_scoped_archive_witness :
  (exists zip', zip_entries Sample.w (VStr "/d") (VStr "DEV1") = Ok zip')
  /\ zip_entries Sample.w (VStr "/d") (VStr "DEV1")
     = Ok [entry_of "/d" "out" "DEV1-a.txt"; entry_of "/d" "temp" "x.net"]
  /\ (archived [entry_of "/d" "out" "DEV1-a.txt"; entry_of "/d" "temp" "x.net"]
        "/d" "out" "DEV2-b.txt" <->
      in_folder Sample.w "/d" "out" "DEV2-b.txt"
      /\ has_suffix ".txt" "DEV2-b.txt" /\ is_substring "DEV1" "DEV2-b.txt").
Proof.
  split; [|split].
  - apply (proj1 (device_scoped_archive Sample.w "/d" "DEV1" [])).
    exact sample_buildable.
  - vm_compute; reflexivity.
  - apply (proj2 (device_scoped_archive Sample.w "/d" "DEV1" _));
      [vm_compute; reflexivity | auto].
Defined.

(** C3, as the code has it: whatever the device filter is, [null] and the
    empty string included, every [.net] file of [temp] is in the archive;
    and with the empty string as filter the two filtered rules contribute
    every [.txt] file of their folders, since every name contains the empty
    string. *)
Theorem empty_filter_archive (w : world) (base : string) (deviceName : value)
    (zip : list entry) :
  zip_entries w (VStr base) deviceName = Ok zip ->
  (forall file,
     archived zip base "temp" file <->
     in_folder w base "temp" file /\ has_suffix ".net" file)
  /\ (deviceName = VStr "" ->
      forall folder file,
        folder = "out" \/ folder = "_inputs_severin/tables" ->
        archived zip base folder file <->
        in_folder w base folder file /\ has_suffix ".txt" file).
Proof.
  intros Hzip. split.
  - intros file.
    rewrite (archived_iff _ _ _ _ "temp" ".net" _ Hzip)
      by (apply elem_of_rules; auto).
    rewrite endsWith_spec, selected_temp. tauto.
  - intros -> folder file Hfolder.
    rewrite (archived_iff _ _ _ _ folder ".txt" _ Hzip)
      by (apply elem_of_rules; destruct Hfolder; auto).
    rewrite selected_filtered, endsWith_spec, includes_empty by done. tauto.
Qed.

Lemma empty_filter_archive_witness :
  zip_entries Sample.w (VStr "/d") (VStr "")
    = Ok [entry_of "/d" "out" "DEV1-a.txt"; entry_of "/d" "out" "DEV2-b.txt";
          entry_of "/d" "temp" "x.net"]
  /\ (archived [entry_of "/d" "out" "DEV1-a.txt"; entry_of "/d" "out" "DEV2-b.txt";
                entry_of "/d" "temp" "x.net"] "/d" "temp" "x.net" <->
      in_folder Sample.w "/d" "temp" "x.net" /\ has_suffix ".net" "x.net").
Proof.
  split; [vm_compute; reflexivity|].
  apply (empty_filter_archive Sample.w "/d" (VStr "")). vm_compute; reflexivity.
Defined.

(** C3 as stated fails: with the empty string as filter both [.txt] files of
    [out] are archived, and with [null] as filter the file whose name
    contains the text [null] is. *)
Lemma empty_or_null_filter_not_empty :
  ~ (forall (w : world) (base : string) (deviceName : value) (zip : list entry)
            (folder file : string),
       deviceName = VNull \/ deviceName = VStr "" ->
       zip_entries w (VStr base) deviceName = Ok zip ->
       folder = "out" \/ folder = "_inputs_severin/tables" ->
       ~ archived zip base folder file)
  /\ zip_entries Sample.w (VStr "/d") (VStr "")
     = Ok [entry_of "/d" "out" "DEV1-a.txt"; entry_of "/d" "out" "DEV2-b.txt";
           entry_of "/d" "temp" "x.net"]
  /\ zip_entries Sample.w_null (VStr "/d") VNull
     = Ok [entry_of "/d" "out" "null-report.txt"; entry_of "/d" "temp" "x.net"].
Proof.
  assert (Hempty : zip_entries Sample.w (VStr "/d") (VStr "")
     = Ok [entry_of "/d" "out" "DEV1-a.txt"; entry_of "/d" "out" "DEV2-b.txt";
           entry_of "/d" "temp" "x.net"]) by (vm_compute; reflexivity).
  split; [|split; [exact Hempty | vm_compute; reflexivity]].
  intros H.
  apply (H Sample.w "/d" (VStr "") _ "out" "DEV1-a.txt" (or_intror eq_refl) Hempty
           (or_introl eq_refl)).
  apply list_elem_of_here.
Qed.

(** ** ArchiveBuilder: entry names *)

#[local] Instance path_join_inj (folder : string) : Inj (=) (=) (path_join folder).
Proof. intros a b. apply path_join_inj_r. Qed.

Lemma rule_names (w : world) (base folder extension : string) (deviceName : value)
    (name : string) :
  name ∈ entry_name <$> rule_entries w base folder extension deviceName ->
  exists file, name = path_join folder file.
Proof.
  intros (e & -> & (file & -> & _)%elem_of_rule_entries)%list_elem_of_fmap.
  by exists file.
Qed.

Lemma rule_names_NoDup (w : world) (base folder extension : string)
    (deviceName : value) :
  NoDup (entry_name <$> rule_entries w base folder extension deviceName).
Proof.
  unfold rule_entries.
  destruct (disk w !! path_join base folder) as [[content|entries|err]|];
    try apply NoDup_nil_2.
  rewrite <- list_fmap_compose.
  apply (NoDup_fmap_2 (path_join folder)).
  do 2 apply NoDup_filter. apply NoDup_elements.
Qed.

Lemma rule_names_disjoint (w : world) (base : string) (deviceName : value)
    (folder extension folder' extension' name : string) :
  (folder, extension) ∈ rules -> (folder', extension') ∈ rules ->
  folder <> folder' ->
  name ∈ entry_name <$> rule_entries w base folder extension deviceName ->
  name ∉ entry_name <$> rule_entries w base folder' extension' deviceName.
Proof.
  intros Hrule Hrule' Hne [file ->]%rule_names [file' Heq]%rule_names.
  by destruct (entry_name_inj _ _ _ _ _ _ Hrule Hrule' Heq) as [? _].
Qed.

(** C8: within one job no two entries of the archive have the same name. *)
Theorem entry_names_unique (w : world) (baseDir deviceName : value)
    (zip : list entry) :
  zip_entries w baseDir deviceName = Ok zip ->
  NoDup (entry_name <$> zip).
Proof.
  intros (base & -> & ->)%zip_entries_ok.
  assert (Hout : ("out", ".txt") ∈ rules) by (apply elem_of_rules; auto).
  assert (Htab : ("_inputs_severin/tables", ".txt") ∈ rules)
    by (apply elem_of_rules; auto).
  assert (Htemp : ("temp", ".net") ∈ rules) by (apply elem_of_rules; auto).
  rewrite !fmap_app. apply NoDup_app. split; [apply rule_names_NoDup|]. split.
  - intros name Hin [Hin' | Hin']%elem_of_app; revert Hin'.
    + by apply (rule_names_disjoint w base deviceName "out" ".txt").
    + by apply (rule_names_disjoint w base deviceName "out" ".txt").
  - apply NoDup_app. split; [apply rule_names_NoDup|].
    split; [|apply rule_names_NoDup].
    intros name Hin.
    by apply (rule_names_disjoint w base deviceName
                "_inputs_severin/tables" ".txt").
Qed.

Lemma entry_names_unique_witness :
  zip_entries Sample.w (VStr "/d") (VStr "DEV1")
    = Ok [entry_of "/d" "out" "DEV1-a.txt"; entry_of "/d" "temp" "x.net"]
  /\ NoDup (entry_name <$>
              [entry_of "/d" "out" "DEV1-a.txt"; entry_of "/d" "temp" "x.net"]).
Proof.
  split; [vm_compute; reflexivity|].
  apply (entry_names_unique Sample.w (VStr "/d") (VStr "DEV1")).
  vm_compute; reflexivity.
Defined.

(** ** ArchiveBuilder: read errors *)

Lemma addFilteredFilesToArchive_unreadable (w : world) (base folder extension : string)
    (deviceName : value) (archive : list entry) (file m : string) :
  in_folder w base folder file ->
  endsWith file extension = true ->
  readFileSync (disk w) (path_join (path_join base folder) file) = Throw m ->
  exists m',
    addFilteredFilesToArchive w (VStr base) folder extension deviceName archive
      = Throw m'.
Proof.
  intros (entries & Hdir & Hin) Hext Hread.
  unfold addFilteredFilesToArchive, existsSync, readdirSync. simpl.
  rewrite Hdir, bool_decide_eq_true_2 by eauto. simpl.
  apply forEach_add_file_unreadable with (file := file) (m := m); [|done].
  apply list_elem_of_filter. split; [by apply Is_true_eq_left|].
  by apply elem_of_elements.
Qed.

Lemma zip_entries_unreadable (w : world) (base : string) (deviceName : value)
    (folder extension file m : string) :
  (folder, extension) ∈ rules ->
  in_folder w base folder file ->
  endsWith file extension = true ->
  readFileSync (disk w) (path_join (path_join base folder) file) = Throw m ->
  exists m', zip_entries w (VStr base) deviceName = Throw m'.
Proof.
  intros Hrule Hin Hext Hread. unfold zip_entries. simpl.
  pose proof (fun archive =>
    addFilteredFilesToArchive_unreadable w base folder extension deviceName
      archive file m Hin Hext Hread) as Hthrow.
  apply elem_of_rules in Hrule as [[-> ->] | [[-> ->] | [-> ->]]].
  - destruct (Hthrow []) as [m' ->]. by exists m'.
  - destruct (addFilteredFilesToArchive w (VStr base) "out" ".txt" deviceName [])
      as [a1|m1]; simpl; [|by exists m1].
    destruct (Hthrow a1) as [m' ->]. by exists m'.
  - destruct (addFilteredFilesToArchive w (VStr base) "out" ".txt" deviceName [])
      as [a1|m1]; simpl; [|by exists m1].
    destruct (addFilteredFilesToArchive w (VStr base) "_inputs_severin/tables"
                ".txt" deviceName a1) as [a2|m2]; simpl; [|by exists m2].
    destruct (Hthrow a2) as [m' ->]. by exists m'.
Qed.

(** C9: every file of a rule folder that has the rule's extension is read
    before the filter is looked at, so when reading one of them fails the
    build returns an error and nothing is sent, whether or not the device
    filter would have kept that file. *)
Theorem read_error_fails_build (w : world) (base : string) (deviceName : value)
    (folder extension file m : string) :
  (folder, extension) ∈ rules ->
  in_folder w base folder file ->
  has_suffix extension file ->
  readFileSync (disk w) (path_join (path_join base folder) file) = Throw m ->
  exists m',
    createAndSendZip w (VStr base) deviceName
    = ([Job (VStr base) deviceName], {| success := false; message := m' |}).
Proof.
  intros Hrule Hin Hext%endsWith_spec Hread.
  destruct (zip_entries_unreadable w base deviceName _ _ _ _ Hrule Hin Hext Hread)
    as [m' Hzip].
  exists m'. unfold createAndSendZip. by rewrite Hzip.
Qed.

Lemma read_error_fails_build_witness :
  selected "out" (VStr "DEV1") "DEV2-b.txt" = false
  /\ exists m',
       createAndSendZip Sample.w_unreadable (VStr "/d") (VStr "DEV1")
       = ([Job (VStr "/d") (VStr "DEV1")], {| success := false; message := m' |}).
Proof.
  split; [reflexivity|].
  apply (read_error_fails_build Sample.w_unreadable "/d" (VStr "DEV1")
           "out" ".txt" "DEV2-b.txt" "EACCES: permission denied").
  - apply elem_of_rules. auto.
  - exists {[ "DEV1-a.txt"; "DEV2-b.txt" ]}. split; [vm_compute; reflexivity|].
    apply elem_of_union_r, elem_of_singleton. reflexivity.
  - exists "DEV2-b". reflexivity.
  - vm_compute. reflexivity.
Defined.

(** ** DirectoryLocator: the count-based join *)

Section Locator.

Variable rt : runtime.
Variable total : nat.
Variable callback : value -> list event.


Lemma run_probes_join (finished : list exec_result) (st : locate_state) :
  finished <> [] ->
  checked st + length finished = total ->
  run_probes rt total callback finished st
  = callback (last_found rt (foundPath st) finished).
Proof.
  revert st. induction finished as [|r rest IH]; intros st Hne Hlen; [done|].
  simpl in *. destruct rest as [|r' rest].
  - rewrite bool_decide_eq_true_2 by (simpl in Hlen; lia).
    simpl. by rewrite app_nil_r.
  - rewrite bool_decide_eq_false_2 by (simpl in Hlen; lia).
    rewrite app_nil_l. rewrite IH; [done | done | simpl in *; lia].
Qed.

Lemma last_found_none (found : value) (finished : list exec_result) :
  (forall r, r ∈ finished -> probe_match rt r = false) ->
  last_found rt found finished = found.
Proof.
  unfold last_found. revert found.
  induction finished as [|r rest IH]; intros found Hnone; simpl; [done|].
  rewrite (Hnone r) by apply list_elem_of_here.
  apply IH. intros r' Hin. apply Hnone. by apply list_elem_of_further.
Qed.

Lemma last_found_last (found : value) (before after : list exec_result)
    (r : exec_result) :
  probe_match rt r = true ->
  (forall r', r' ∈ after -> probe_match rt r' = false) ->
  last_found rt found (before ++ r :: after) = probe_dir rt r.
Proof.
  intros Hr Hafter. unfold last_found.
  rewrite fold_left_app. simpl. rewrite Hr.
  by apply last_found_none.
Qed.

End Locator.

Lemma finished_probes_valid (w : world) (fileName : string) (order : list nat) :
  (forall i, i ∈ order -> i < length (getCommonDirectories w)) ->
  finished_probes (with_completion w order) (getCommonDirectories w) fileName
  = probe w fileName <$> order.
Proof.
  unfold finished_probes. simpl.
  induction order as [|i order IH]; intros Hvalid; simpl; [done|].
  destruct (lookup_lt_is_Some_2 (getCommonDirectories w) i) as [dir Hdir].
  { apply Hvalid, list_elem_of_here. }
  unfold probe at 1. rewrite Hdir. simpl. f_equal.
  apply IH. intros j Hj. apply Hvalid. by apply list_elem_of_further.
Qed.

Lemma with_completion_id (w : world) : with_completion w (completion w) = w.
Proof. by destruct w. Qed.

Lemma completion_valid (w : world) (order : list nat) (i : nat) :
  order ≡ₚ seq 0 (length (getCommonDirectories w)) ->
  i ∈ order -> i < length (getCommonDirectories w).
Proof.
  intros Hperm Hin. rewrite Hperm in Hin.
  apply elem_of_seq in Hin. lia.
Qed.

(** Every probe has finished: the callback runs once, with what the last
    matching probe stored, or with [null] when none matched. *)
Lemma findInCommonDirs_joined (rt : runtime) (w : world) (fileName : string)
    (callback : value -> list event) :
  completion w ≡ₚ seq 0 (length (getCommonDirectories w)) ->
  findInCommonDirs rt w fileName callback
  = probes_started w fileName
    ++ callback (last_found rt VNull (probe w fileName <$> completion w)).
Proof.
  intros Hperm. unfold findInCommonDirs, probes_started. f_equal.
  rewrite <- (with_completion_id w) at 2.
  rewrite finished_probes_valid by (intros i; by apply completion_valid).
  assert (Hlen : length (completion w) = 6) by (by rewrite Hperm).
  rewrite run_probes_join; [done | | ].
  - intros Hnil%(f_equal length). rewrite length_fmap, Hlen in Hnil. done.
  - simpl. rewrite length_fmap. done.
Qed.


(** ** What the handlers can emit *)

Lemma filter_nil_Forall {A : Type} (P : A -> bool) (Q : A -> Prop) (l : list A) :
  (forall x, Q x -> P x = false) ->
  Forall Q l ->
  filter (fun x => P x) l = [].
Proof.
  intros HQ. induction 1 as [|x l Hx Hl IH]; [done|].
  rewrite filter_cons, (HQ x Hx). simpl. exact IH.
Qed.

Lemma broadcast_Forall (P : event -> Prop) (w : world) (zip : list entry) :
  (forall to, P (Send to (Binary zip))) ->
  Forall P (broadcast w zip).
Proof.
  intros HP. unfold broadcast. apply Forall_fmap, Forall_forall.
  intros c _. apply HP.
Qed.

Lemma createAndSendZip_Forall (P : event -> Prop) (w : world)
    (baseDir deviceName : value) :
  P (Job baseDir deviceName) ->
  (forall to zip, P (Send to (Binary zip))) ->
  Forall P (createAndSendZip w baseDir deviceName).1.
Proof.
  intros HJob HSend. unfold createAndSendZip.
  destruct (zip_entries w baseDir deviceName) as [zip|m]; simpl.
  - apply Forall_cons. split; [done|]. by apply broadcast_Forall.
  - by apply Forall_cons.
Qed.

Lemma run_probes_Forall (P : event -> Prop) (rt : runtime) (total : nat)
    (callback : value -> list event) (finished : list exec_result)
    (st : locate_state) :
  (forall v, Forall P (callback v)) ->
  Forall P (run_probes rt total callback finished st).
Proof.
  intros Hcb. revert st.
  induction finished as [|r rest IH]; intros st; simpl; [done|].
  apply Forall_app. split; [|apply IH].
  destruct (bool_decide _); [apply Hcb | done].
Qed.

Lemma probes_started_Forall (P : event -> Prop) (w : world) (fileName : string) :
  (forall cmd, P (Exec cmd)) ->
  Forall P (probes_started w fileName).
Proof.
  intros HP. unfold probes_started. apply Forall_fmap, Forall_forall.
  intros dir _. apply HP.
Qed.

Section DeviceRequest.

Variable rt : runtime.
Variable w : world.
Variable deviceName : value.
Variable ws : peer.

(** The callback [handleDeviceNameAction] gives to [findFileOnDisk]. *)
Lemma found_or_not_Forall (fileName : string) (fullPath : value) :
  Forall (after_search_event deviceName ws)
    (if truthy fullPath then
       Send ws (Text (FileFound fileName fullPath)) ::
       (createAndSendZip w fullPath deviceName).1
     else [Send ws (Text (FileNotFound fileName))]).
Proof.
  destruct (truthy fullPath).
  - apply Forall_cons. split; [done|]. by apply createAndSendZip_Forall.
  - by apply Forall_cons.
Qed.

Lemma findFileOnDisk_Forall (P : event -> Prop) (fileName : string)
    (callback : value -> list event) :
  P (Exec (GetChildItem fileName)) ->
  (forall v, Forall P (callback v)) ->
  Forall P (findFileOnDisk rt w fileName callback).
Proof.
  intros HP Hcb. unfold findFileOnDisk. apply Forall_cons. split; [done|].
  destruct (error _); apply Hcb.
Qed.

Lemma after_search_device_event (e : event) :
  after_search_event deviceName ws e -> device_event deviceName ws e.
Proof. by destruct e. Qed.

Lemma handleDeviceNameAction_Forall :
  Forall (device_event deviceName ws) (handleDeviceNameAction rt w deviceName ws).
Proof.
  unfold handleDeviceNameAction, findInCommonDirs. apply Forall_app. split.
  - by apply (probes_started_Forall _ w).
  - apply run_probes_Forall. intros directory. destruct (truthy directory) eqn:E.
    + eapply Forall_impl; [|apply after_search_device_event].
      pose proof (found_or_not_Forall "ASMP start.bat" directory) as H.
      by rewrite E in H.
    + apply findFileOnDisk_Forall; [done|]. intros fullPath.
      eapply Forall_impl; [|apply after_search_device_event].
      apply found_or_not_Forall.
Qed.


End DeviceRequest.

(** ** DirectoryLocator: which probe wins *)



Lemma findInCommonDirs_last_match (rt : runtime) (w : world) (fileName : string)
    (callback : value -> list event) (before after : list nat) (i : nat) :
  completion w ≡ₚ seq 0 (length (getCommonDirectories w)) ->
  completion w = before ++ i :: after ->
  probe_match rt (probe w fileName i) = true ->
  (forall j, j ∈ after -> probe_match rt (probe w fileName j) = false) ->
  findInCommonDirs rt w fileName callback
  = probes_started w fileName ++ callback (probe_dir rt (probe w fileName i)).
Proof.
  intros Hperm Hsplit Hi Hafter.
  rewrite findInCommonDirs_joined by done.
  rewrite Hsplit, fmap_app, fmap_cons.
  rewrite last_found_last; [done | done |].
  intros r (j & -> & Hj)%list_elem_of_fmap. by apply Hafter.
Qed.






(** ** MessageRouter: the branches of [handleWebSocketMessage] *)

Section Router.

Variable rt : runtime.
Variable w : world.
Variable msg : string.
Variable ws : peer.

Lemma prop_field (data : value) (key : string) :
  nullish data = false -> prop data key = Ok (field data key).
Proof. by destruct data. Qed.

Lemma handle_parse_error (m : string) :
  JSON_parse rt msg = Throw m ->
  handleWebSocketMessage rt w msg ws = [Send ws (Text (Status false m))].
Proof. unfold handleWebSocketMessage, route. by intros ->. Qed.

Lemma handle_nullish (data : value) :
  JSON_parse rt msg = Ok data ->
  nullish data = true ->
  handleWebSocketMessage rt w msg ws
  = [Send ws (Text (Status false "Cannot read properties of null"))].
Proof. unfold handleWebSocketMessage, route. intros ->. by destruct data. Qed.

Lemma handle_direct_path (data : value) :
  JSON_parse rt msg = Ok data ->
  nullish data = false ->
  direct_path_shape data = true ->
  handleWebSocketMessage rt w msg ws
  = (createAndSendZip w (field data "filePath") VNull).1
    ++ [Send ws (Text (Status
          (success (createAndSendZip w (field data "filePath") VNull).2)
          (message (createAndSendZip w (field data "filePath") VNull).2)))].
Proof.
  unfold handleWebSocketMessage, route, direct_path_shape.
  intros -> Hdata Htype. simpl.
  rewrite (prop_field _ "type" Hdata). simpl. rewrite Htype.
  rewrite (prop_field _ "filePath" Hdata). simpl.
  by destruct (createAndSendZip w (field data "filePath") VNull).
Qed.

Lemma handle_device_name (data : value) :
  JSON_parse rt msg = Ok data ->
  nullish data = false ->
  direct_path_shape data = false ->
  device_name_shape data = true ->
  handleWebSocketMessage rt w msg ws
  = handleDeviceNameAction rt w (field data "deviceName") ws.
Proof.
  unfold handleWebSocketMessage, route, direct_path_shape, device_name_shape.
  intros -> Hdata Htype [Haction Hname]%andb_true_iff. simpl.
  rewrite (prop_field _ "type" Hdata). simpl. rewrite Htype.
  rewrite (prop_field _ "action" Hdata). simpl. rewrite Haction.
  rewrite (prop_field _ "deviceName" Hdata). simpl. by rewrite Hname.
Qed.

Lemma handle_unrecognized (data : value) :
  JSON_parse rt msg = Ok data ->
  nullish data = false ->
  direct_path_shape data = false ->
  device_name_shape data = false ->
  handleWebSocketMessage rt w msg ws = [].
Proof.
  unfold handleWebSocketMessage, route, direct_path_shape, device_name_shape.
  intros -> Hdata Htype Hshape. simpl.
  rewrite (prop_field _ "type" Hdata). simpl. rewrite Htype.
  rewrite (prop_field _ "action" Hdata). simpl.
  destruct (strict_eq_str (field data "action") "sendDeviceName"); [|done].
  rewrite (prop_field _ "deviceName" Hdata). simpl.
  simpl in Hshape. by rewrite Hshape.
Qed.


(** A device request is never answered with a status. *)
Lemma device_request_no_status (data : value) :
  JSON_parse rt msg = Ok data ->
  nullish data = false ->
  direct_path_shape data = false ->
  device_name_shape data = true ->
  filter (fun e => is_status e) (handleWebSocketMessage rt w msg ws) = [].
Proof.
  intros Hparse Hdata Htype Hshape.
  rewrite (handle_device_name data Hparse Hdata Htype Hshape).
  apply (filter_nil_Forall is_status
           (device_event (field data "deviceName") ws)).
  - by intros [| |to [[]|]].
  - apply handleDeviceNameAction_Forall.
Qed.

End Router.

(** ** MessageRouter: what a request gets *)

(** With [null] as device name, [includes] looks for the text [null]. *)
Lemma null_filter_archive (w : world) (base : string) (zip : list entry)
    (folder file : string) :
  zip_entries w (VStr base) VNull = Ok zip ->
  folder = "out" \/ folder = "_inputs_severin/tables" ->
  archived zip base folder file <->
  in_folder w base folder file /\ has_suffix ".txt" file
  /\ is_substring "null" file.
Proof.
  intros Hzip Hfolder.
  rewrite (archived_iff _ _ _ _ folder ".txt" _ Hzip)
    by (apply elem_of_rules; destruct Hfolder; auto).
  rewrite endsWith_spec, <- includes_spec. by destruct Hfolder as [-> | ->].
Qed.


(** C5 on the code: a device request whose build fails on an unreadable file
    gets [fileFound] and nothing after it, and one whose build succeeds gets
    [fileFound] and the archive; neither gets a status. *)
Theorem device_request_gets_no_status :
  handleWebSocketMessage Sample.rt Sample.w_unreadable Sample.device_message 7
  = probes_started Sample.w_unreadable "ASMP start.bat"
    ++ [ Send 7 (Text (FileFound "ASMP start.bat" (VStr "/d")));
         Job (VStr "/d") (VStr "DEV1") ]
  /\ (createAndSendZip Sample.w_unreadable (VStr "/d") (VStr "DEV1")).2
     = {| success := false; message := "EACCES: permission denied" |}
  /\ handleWebSocketMessage Sample.rt Sample.w Sample.device_message 7
     = probes_started Sample.w "ASMP start.bat"
       ++ [ Send 7 (Text (FileFound "ASMP start.bat" (VStr "/d")));
            Job (VStr "/d") (VStr "DEV1");
            Send 1 (Binary [entry_of "/d" "out" "DEV1-a.txt";
                            entry_of "/d" "temp" "x.net"]) ].
Proof. repeat split; vm_compute; reflexivity. Qed.

(** C7, as the code has it: a message that [JSON.parse] rejects, or that
    parses to [null], gets exactly one error reply and nothing else happens;
    any other parsed payload that has neither the direct-path nor the
    device-name shape is dropped without a reply and without any effect. *)
Theorem malformed_or_unrecognized (rt : runtime) (w : world) (msg : string)
    (ws : peer) :
  (forall m,
     JSON_parse rt msg = Throw m ->
     handleWebSocketMessage rt w msg ws = [Send ws (Text (Status false m))])
  /\ (forall data,
        JSON_parse rt msg = Ok data ->
        nullish data = true ->
        exists m,
          handleWebSocketMessage rt w msg ws = [Send ws (Text (Status false m))])
  /\ (forall data,
        JSON_parse rt msg = Ok data ->
        nullish data = false ->
        direct_path_shape data = false ->
        device_name_shape data = false ->
        handleWebSocketMessage rt w msg ws = []).
Proof.
  split; [|split].
  - apply handle_parse_error.
  - intros data Hparse Hdata. eexists. by apply (handle_nullish _ _ _ _ data).
  - apply handle_unrecognized.
Qed.

Lemma malformed_or_unrecognized_witness :
  handleWebSocketMessage Sample.rt Sample.w "{" 7
    = [Send 7 (Text (Status false "Unexpected token in JSON"))]
  /\ (exists m, handleWebSocketMessage Sample.rt Sample.w "null" 7
                = [Send 7 (Text (Status false m))])
  /\ handleWebSocketMessage Sample.rt Sample.w "5" 7 = [].
Proof.
  pose proof (malformed_or_unrecognized Sample.rt Sample.w) as H.
  split; [|split].
  - apply (proj1 (H "{" 7)). reflexivity.
  - apply (proj1 (proj2 (H "null" 7)) VNull); reflexivity.
  - apply (proj2 (proj2 (H "5" 7)) (VNum "5")); reflexivity.
Defined.

(** C7 as stated fails: the payload [null] parses, has neither shape, and
    is answered with an error. *)
Lemma null_payload_is_answered :
  ~ (forall (rt : runtime) (w : world) (msg : string) (ws : peer) (data : value),
       JSON_parse rt msg = Ok data ->
       direct_path_shape data = false ->
       device_name_shape data = false ->
       handleWebSocketMessage rt w msg ws = [])
  /\ JSON_parse Sample.rt "null" = Ok VNull
  /\ handleWebSocketMessage Sample.rt Sample.w "null" 7
     = [Send 7 (Text (Status false "Cannot read properties of null"))].
Proof.
  split; [|split; reflexivity].
  intros H.
  by specialize (H Sample.rt Sample.w "null" 7 VNull eq_refl eq_refl eq_refl).
Qed.

(** C10: a device request whose [deviceName] is absent, [null] or the empty
    string is dropped: no reply, no search, no build.  And a job that is not
    started by a direct-path message carries the device name of the message,
    which is truthy, hence never the empty string. *)
Theorem falsy_device_name_dropped (rt : runtime) (w : world) (msg : string)
    (ws : peer) :
  (forall fields,
     JSON_parse rt msg = Ok (VObj fields) ->
     fields !! "type" <> Some (VStr "filePath") ->
     fields !! "action" = Some (VStr "sendDeviceName") ->
     fields !! "deviceName" = None \/ fields !! "deviceName" = Some VNull
       \/ fields !! "deviceName" = Some (VStr "") ->
     handleWebSocketMessage rt w msg ws = [])
  /\ (forall data baseDir deviceName,
        JSON_parse rt msg = Ok data ->
        direct_path_shape data = false ->
        Job baseDir deviceName ∈ handleWebSocketMessage rt w msg ws ->
        deviceName = field data "deviceName"
        /\ truthy deviceName = true /\ deviceName <> VStr "").
Proof.
  split.
  - intros fields Hparse Htype Haction Hname.
    apply (handle_unrecognized rt w msg ws (VObj fields) Hparse); [done| |].
    + unfold direct_path_shape, field. simpl.
      destruct (fields !! "type") as [[]|] eqn:E; try done. simpl.
      apply bool_decide_eq_false_2. congruence.
    + unfold device_name_shape, field. simpl.
      apply andb_false_iff. right.
      by destruct Hname as [-> | [-> | ->]].
  - intros data baseDir deviceName Hparse Htype Hjob.
    destruct (nullish data) eqn:Hdata.
    { rewrite (handle_nullish rt w msg ws data Hparse Hdata) in Hjob.
      by apply list_elem_of_singleton in Hjob. }
    destruct (device_name_shape data) eqn:Hshape.
    + rewrite (handle_device_name rt w msg ws data Hparse Hdata Htype Hshape) in Hjob.
      pose proof (handleDeviceNameAction_Forall rt w (field data "deviceName") ws)
        as Hall.
      rewrite Forall_forall in Hall. apply Hall in Hjob. simpl in Hjob. subst.
      apply andb_true_iff in Hshape as [_ Htruthy].
      repeat split; [done|]. intros Heq. by rewrite Heq in Htruthy.
    + rewrite (handle_unrecognized rt w msg ws data Hparse Hdata Htype Hshape) in Hjob.
      by apply elem_of_nil in Hjob.
Qed.

Lemma falsy_device_name_dropped_witness :
  handleWebSocketMessage Sample.rt Sample.w Sample.empty_device_message 7 = []
  /\ (VStr "DEV1"
      = field (VObj {[ "action" := VStr "sendDeviceName";
                       "deviceName" := VStr "DEV1" ]}) "deviceName"
      /\ truthy (VStr "DEV1") = true /\ VStr "DEV1" <> VStr "").
Proof.
  pose proof (falsy_device_name_dropped Sample.rt Sample.w) as H.
  split.
  - apply (proj1 (H Sample.empty_device_message 7)
             {[ "action" := VStr "sendDeviceName"; "deviceName" := VStr "" ]}).
    + reflexivity.
    + vm_compute. discriminate.
    + vm_compute. reflexivity.
    + right. right. vm_compute. reflexivity.
  - apply (proj2 (H Sample.device_message 7)
             (VObj {[ "action" := VStr "sendDeviceName";
                      "deviceName" := VStr "DEV1" ]})
             (VStr "/d") (VStr "DEV1")).
    + reflexivity.
    + reflexivity.
    + vm_compute. do 7 apply list_elem_of_further. apply list_elem_of_here.
Defined.

(** * Further properties *)

(** ** ArchiveBuilder *)

Lemma addFilteredFilesToArchive_absent (w : world) (base folder extension : string)
    (deviceName : value) (archive : list entry) :
  disk w !! path_join base folder = None ->
  addFilteredFilesToArchive w (VStr base) folder extension deviceName archive
  = Ok archive.
Proof.
  intros Habsent. unfold addFilteredFilesToArchive, existsSync. simpl.
  by rewrite Habsent, bool_decide_eq_false_2 by (by intros [? ?]).
Qed.

(** When none of the three folders exists under the base directory, the
    build succeeds whatever the device name is, and an archive without
    entries goes to the open clients. *)
Theorem missing_folders_empty_archive (w : world) (base : string)
    (deviceName : value) :
  finalize_error w = None ->
  (forall folder extension,
     (folder, extension) ∈ rules -> disk w !! path_join base folder = None) ->
  createAndSendZip w (VStr base) deviceName
  = (Job (VStr base) deviceName :: broadcast w [],
     {| success := true;
        message := "Filtered ZIP successfully created and sent." |}).
Proof.
  intros Hfinal Habsent.
  assert (Hzip : zip_entries w (VStr base) deviceName = Ok []).
  { unfold zip_entries. simpl.
    do 3 (rewrite addFilteredFilesToArchive_absent
            by (eapply Habsent, elem_of_rules; eauto); simpl).
    unfold finalize. by rewrite Hfinal. }
  unfold createAndSendZip. by rewrite Hzip.
Qed.

Lemma missing_folders_empty_archive_witness :
  createAndSendZip Cases.w_bare (VStr "/e") (VObj {[ "toString" := VNull ]})
  = ([Job (VStr "/e") (VObj {[ "toString" := VNull ]}); Send 1 (Binary [])],
     {| success := true;
        message := "Filtered ZIP successfully created and sent." |}).
Proof.
  apply (missing_folders_empty_archive Cases.w_bare "/e"
           (VObj {[ "toString" := VNull ]})).
  - reflexivity.
  - intros folder extension _. reflexivity.
Defined.

Lemma addFilteredFilesToArchive_not_dir (w : world) (base folder extension : string)
    (deviceName : value) (archive : list entry) :
  (exists content, disk w !! path_join base folder = Some (File content))
  \/ (exists err, disk w !! path_join base folder = Some (Denied err)) ->
  exists m,
    addFilteredFilesToArchive w (VStr base) folder extension deviceName archive
    = Throw m.
Proof.
  unfold addFilteredFilesToArchive, existsSync, readdirSync. simpl.
  intros [[content ->] | [err ->]];
    rewrite bool_decide_eq_true_2 by eauto; by eexists.
Qed.

Lemma zip_entries_rule_throws (w : world) (base : string) (deviceName : value)
    (folder extension : string) :
  (folder, extension) ∈ rules ->
  (forall archive, exists m,
     addFilteredFilesToArchive w (VStr base) folder extension deviceName archive
     = Throw m) ->
  exists m, zip_entries w (VStr base) deviceName = Throw m.
Proof.
  intros Hrule Hthrow. unfold zip_entries. simpl.
  apply elem_of_rules in Hrule as [[-> ->] | [[-> ->] | [-> ->]]].
  - destruct (Hthrow []) as [m ->]. by exists m.
  - destruct (addFilteredFilesToArchive w (VStr base) "out" ".txt" deviceName [])
      as [a1|m1]; simpl; [|by exists m1].
    destruct (Hthrow a1) as [m ->]. by exists m.
  - destruct (addFilteredFilesToArchive w (VStr base) "out" ".txt" deviceName [])
      as [a1|m1]; simpl; [|by exists m1].
    destruct (addFilteredFilesToArchive w (VStr base) "_inputs_severin/tables"
                ".txt" deviceName a1) as [a2|m2]; simpl; [|by exists m2].
    destruct (Hthrow a2) as [m ->]. by exists m.
Qed.

(** A rule folder that exists but is not a directory that can be listed (a
    plain file, or a directory whose listing is refused) is not skipped as a
    missing one is: the build returns an error and nothing is sent. *)
Theorem unlistable_folder_fails_build (w : world) (base : string)
    (deviceName : value) (folder extension : string) :
  (folder, extension) ∈ rules ->
  (exists content, disk w !! path_join base folder = Some (File content))
  \/ (exists err, disk w !! path_join base folder = Some (Denied err)) ->
  exists m,
    createAndSendZip w (VStr base) deviceName
    = ([Job (VStr base) deviceName], {| success := false; message := m |}).
Proof.
  intros Hrule Hnode.
  destruct (zip_entries_rule_throws w base deviceName folder extension Hrule)
    as [m Hzip].
  { intros archive. by apply addFilteredFilesToArchive_not_dir. }
  exists m. unfold createAndSendZip. by rewrite Hzip.
Qed.

Lemma unlistable_folder_fails_build_witness :
  exists m,
    createAndSendZip Cases.w_out_is_file (VStr "/d") (VStr "DEV1")
    = ([Job (VStr "/d") (VStr "DEV1")], {| success := false; message := m |}).
Proof.
  apply (unlistable_folder_fails_build Cases.w_out_is_file "/d" (VStr "DEV1")
           "out" ".txt").
  - apply elem_of_rules. auto.
  - left. exists "not a folder". vm_compute. reflexivity.
Defined.

(** The archive of a build is sent to a peer exactly when the build has
    succeeded and the peer is among the clients with an open connection;
    what is sent is the archive of that build. *)
Theorem archive_goes_to_open_clients (w : world) (baseDir deviceName : value)
    (to : peer) (zip : list entry) :
  Send to (Binary zip) ∈ (createAndSendZip w baseDir deviceName).1 <->
  zip_entries w baseDir deviceName = Ok zip /\ (to, OPEN) ∈ clients w.
Proof.
  unfold createAndSendZip.
  destruct (zip_entries w baseDir deviceName) as [zip'|m]; simpl.
  - rewrite elem_of_cons. unfold broadcast.
    rewrite list_elem_of_fmap. split.
    + intros [? | ([to' state] & [= -> ->] & [Hopen Hin]%list_elem_of_filter)];
        [done|].
      simpl in Hopen. by subst.
    + intros [[= ->] Hin]. right. exists (to, OPEN). split; [done|].
      by apply list_elem_of_filter.
  - rewrite list_elem_of_singleton. split; [done | by intros [? _]].
Qed.

(** The device name is matched as text, whatever kind of value it is: when
    it converts to the string [needle], the two filtered folders contribute
    exactly the [.txt] files whose name contains [needle].  A number is
    matched by its digits. *)
Theorem device_name_matched_as_text (w : world) (base : string)
    (deviceName : value) (needle : string) (zip : list entry)
    (folder file : string) :
  zip_entries w (VStr base) deviceName = Ok zip ->
  ToString deviceName = Ok needle ->
  folder = "out" \/ folder = "_inputs_severin/tables" ->
  archived zip base folder file <->
  in_folder w base folder file /\ has_suffix ".txt" file
  /\ is_substring needle file.
Proof.
  intros Hzip Hneedle Hfolder.
  rewrite (archived_iff _ _ _ _ folder ".txt" _ Hzip)
    by (apply elem_of_rules; destruct Hfolder; auto).
  rewrite endsWith_spec, <- includes_spec.
  unfold selected. rewrite Hneedle. by destruct Hfolder as [-> | ->].
Qed.

Lemma device_name_matched_as_text_witness :
  zip_entries Sample.w (VStr "/d") (VNum "2")
    = Ok [entry_of "/d" "out" "DEV2-b.txt"; entry_of "/d" "temp" "x.net"]
  /\ (archived [entry_of "/d" "out" "DEV2-b.txt"; entry_of "/d" "temp" "x.net"]
        "/d" "out" "DEV2-b.txt" <->
      in_folder Sample.w "/d" "out" "DEV2-b.txt"
      /\ has_suffix ".txt" "DEV2-b.txt" /\ is_substring "2" "DEV2-b.txt").
Proof.
  split; [vm_compute; reflexivity|].
  apply (device_name_matched_as_text Sample.w "/d" (VNum "2") "2").
  - vm_compute; reflexivity.
  - reflexivity.
  - by left.
Defined.

Lemma string_app_assoc (a b c : string) :
  (a +:+ b) +:+ c = a +:+ (b +:+ c).
Proof.
  induction a as [|x a IH]; [done|].
  change (String x ((a +:+ b) +:+ c) = String x (a +:+ (b +:+ c))).
  by rewrite IH.
Qed.

Lemma path_join_assoc (a b c : string) :
  path_join (path_join a b) c = path_join a (path_join b c).
Proof. unfold path_join. by rewrite string_app_assoc. Qed.

(** Whatever the device name is, a built archive holds nothing but files
    listed directly in one of the three folders and carrying that folder's
    extension; each is stored under its path relative to the base
    directory. *)
Theorem archive_holds_rule_files_only (w : world) (base : string)
    (deviceName : value) (zip : list entry) (e : entry) :
  zip_entries w (VStr base) deviceName = Ok zip ->
  e ∈ zip ->
  exists folder extension file,
    (folder, extension) ∈ rules
    /\ in_folder w base folder file
    /\ has_suffix extension file
    /\ entry_name e = path_join folder file
    /\ entry_src e = path_join base (entry_name e).
Proof.
  intros Hzip He.
  destruct (zip_entries_shape _ _ _ _ _ Hzip He)
    as (folder & extension & file & Hrule & ->).
  destruct (proj1 (archived_iff _ _ _ _ folder extension file Hzip Hrule) He)
    as (Hin & Hext%endsWith_spec & _).
  exists folder, extension, file. repeat split; try done.
  simpl. apply path_join_assoc.
Qed.

Lemma archive_holds_rule_files_only_witness :
  exists folder extension file,
    (folder, extension) ∈ rules
    /\ in_folder Sample.w "/d" folder file
    /\ has_suffix extension file
    /\ entry_name (entry_of "/d" "temp" "x.net") = path_join folder file
    /\ entry_src (entry_of "/d" "temp" "x.net")
       = path_join "/d" (entry_name (entry_of "/d" "temp" "x.net")).
Proof.
  apply (archive_holds_rule_files_only Sample.w "/d" VNull
           [entry_of "/d" "temp" "x.net"]).
  - vm_compute; reflexivity.
  - apply list_elem_of_here.
Defined.

(** ** DirectoryLocator and the device request *)

Lemma binary_only (e : event) :
  is_binary e = true ->
  is_job e = false /\ is_search_reply e = false /\ is_exec e = false
  /\ is_probe e = false.
Proof. by destruct e as [| |to []]. Qed.

Lemma build_events (w : world) (baseDir deviceName : value) :
  filter (fun e => is_job e) (createAndSendZip w baseDir deviceName).1
    = [Job baseDir deviceName]
  /\ filter (fun e => is_search_reply e) (createAndSendZip w baseDir deviceName).1 = []
  /\ filter (fun e => is_exec e) (createAndSendZip w baseDir deviceName).1 = []
  /\ filter (fun e => is_probe e) (createAndSendZip w baseDir deviceName).1 = [].
Proof.
  assert (Hbin : forall zip, Forall (fun e => is_binary e = true) (broadcast w zip)).
  { intros zip. by apply broadcast_Forall. }
  unfold createAndSendZip.
  destruct (zip_entries w baseDir deviceName) as [zip|m]; simpl; [|done].
  rewrite !filter_cons. simpl.
  rewrite (filter_nil_Forall is_job _ _ (fun e H => proj1 (binary_only e H)) (Hbin zip)).
  rewrite (filter_nil_Forall is_search_reply _ _
             (fun e H => proj1 (proj2 (binary_only e H))) (Hbin zip)).
  rewrite (filter_nil_Forall is_exec _ _
             (fun e H => proj1 (proj2 (proj2 (binary_only e H)))) (Hbin zip)).
  rewrite (filter_nil_Forall is_probe _ _
             (fun e H => proj2 (proj2 (proj2 (binary_only e H)))) (Hbin zip)).
  done.
Qed.

Section DeviceTrace.

Variable rt : runtime.
Variable w : world.
Variable deviceName : value.
Variable ws : peer.

(** What both callbacks of [handleDeviceNameAction] do with a directory. *)
Lemma found_or_not_events (fileName : string) (v : value) (events : list event) :
  events = (if truthy v then
              Send ws (Text (FileFound fileName v)) ::
              (createAndSendZip w v deviceName).1
            else [Send ws (Text (FileNotFound fileName))]) ->
  filter (fun e => is_probe e) events = []
  /\ ((truthy v = true
       /\ filter (fun e => is_search_reply e) events
          = [Send ws (Text (FileFound fileName v))]
       /\ filter (fun e => is_job e) events = [Job v deviceName])
      \/ (filter (fun e => is_search_reply e) events
          = [Send ws (Text (FileNotFound fileName))]
          /\ filter (fun e => is_job e) events = [])).
Proof.
  intros ->.
  destruct (build_events w v deviceName) as (Hjob & Hreply & _ & Hprobe).
  destruct (truthy v).
  - rewrite !filter_cons. simpl. rewrite Hjob, Hreply, Hprobe. auto.
  - split; [done|]. by right.
Qed.

Lemma findFileOnDisk_once (fileName : string) (callback : value -> list event) :
  exists v, findFileOnDisk rt w fileName callback
            = Exec (GetChildItem fileName) :: callback v.
Proof. unfold findFileOnDisk. destruct (error _); by eexists. Qed.

(** What the callback given to [findInCommonDirs] does with [directory]. *)
Lemma after_probes_events (directory : value) (events : list event) :
  events = (if truthy directory then
              Send ws (Text (FileFound "ASMP start.bat" directory)) ::
              (createAndSendZip w directory deviceName).1
            else
              findFileOnDisk rt w "ASMP start.bat" (fun fullPath =>
                if truthy fullPath then
                  Send ws (Text (FileFound "ASMP start.bat" fullPath)) ::
                  (createAndSendZip w fullPath deviceName).1
                else [Send ws (Text (FileNotFound "ASMP start.bat"))])) ->
  filter (fun e => is_probe e) events = []
  /\ ((exists dir,
         truthy dir = true
         /\ filter (fun e => is_search_reply e) events
            = [Send ws (Text (FileFound "ASMP start.bat" dir))]
         /\ filter (fun e => is_job e) events = [Job dir deviceName])
      \/ (filter (fun e => is_search_reply e) events
          = [Send ws (Text (FileNotFound "ASMP start.bat"))]
          /\ filter (fun e => is_job e) events = [])).
Proof.
  intros ->. destruct (truthy directory) eqn:Hdir.
  - destruct (found_or_not_events "ASMP start.bat" directory _
                ltac:(by rewrite Hdir)) as [Hprobe [H | H]].
    + split; [done|]. left. by exists directory.
    + split; [done|]. by right.
  - destruct (findFileOnDisk_once "ASMP start.bat"
                (fun fullPath =>
                   if truthy fullPath then
                     Send ws (Text (FileFound "ASMP start.bat" fullPath)) ::
                     (createAndSendZip w fullPath deviceName).1
                   else [Send ws (Text (FileNotFound "ASMP start.bat"))]))
      as [v ->].
    rewrite !filter_cons. simpl.
    destruct (found_or_not_events "ASMP start.bat" v _ eq_refl)
      as [Hprobe [H | H]].
    + split; [done|]. left. by exists v.
    + split; [done|]. by right.
Qed.

End DeviceTrace.

Lemma probes_started_filters (w : world) (fileName : string) :
  filter (fun e => is_probe e) (probes_started w fileName)
    = probes_started w fileName
  /\ filter (fun e => is_search_reply e) (probes_started w fileName) = []
  /\ filter (fun e => is_job e) (probes_started w fileName) = [].
Proof. done. Qed.

(** A device request starts one probe per known directory, six in all and
    in the order of the list, whatever the probes then find and in whatever
    order they finish: a match in one directory stops no other probe. *)
Theorem every_known_directory_is_probed (rt : runtime) (w : world)
    (deviceName : value) (ws : peer) :
  filter (fun e => is_probe e) (handleDeviceNameAction rt w deviceName ws)
  = (fun dir => Exec (Where dir "ASMP start.bat")) <$> getCommonDirectories w
  /\ length (getCommonDirectories w) = 6.
Proof.
  split; [|done].
  unfold handleDeviceNameAction, findInCommonDirs.
  fold (probes_started w "ASMP start.bat").
  rewrite filter_app, (proj1 (probes_started_filters w _)).
  rewrite (filter_nil_Forall is_probe (fun e => is_probe e = false));
    [by rewrite app_nil_r | done |].
  apply run_probes_Forall. intros directory. apply Forall_forall. intros e He.
  destruct (after_probes_events rt w deviceName ws directory _ eq_refl)
    as [Hprobe _].
  destruct (is_probe e) eqn:E; [|done].
  assert (Hin : e ∈ filter (fun e => is_probe e)
            (if truthy directory then
               Send ws (Text (FileFound "ASMP start.bat" directory)) ::
               (createAndSendZip w directory deviceName).1
             else
               findFileOnDisk rt w "ASMP start.bat" (fun fullPath =>
                 if truthy fullPath then
                   Send ws (Text (FileFound "ASMP start.bat" fullPath)) ::
                   (createAndSendZip w fullPath deviceName).1
                 else [Send ws (Text (FileNotFound "ASMP start.bat"))]))).
  { apply list_elem_of_filter. split; [by apply Is_true_eq_left | done]. }
  rewrite Hprobe in Hin. by apply elem_of_nil in Hin.
Qed.

(** Once every probe has finished, the peer has been told exactly once how
    the search ended: either [fileFound] with a directory, and then exactly
    one build is started, on that directory and with the device name of the
    request; or [fileNotFound], and then no build is started. *)
Theorem one_search_reply (rt : runtime) (w : world) (deviceName : value)
    (ws : peer) :
  completion w ≡ₚ seq 0 (length (getCommonDirectories w)) ->
  (exists dir,
     truthy dir = true
     /\ filter (fun e => is_search_reply e) (handleDeviceNameAction rt w deviceName ws)
        = [Send ws (Text (FileFound "ASMP start.bat" dir))]
     /\ filter (fun e => is_job e) (handleDeviceNameAction rt w deviceName ws)
        = [Job dir deviceName])
  \/ (filter (fun e => is_search_reply e) (handleDeviceNameAction rt w deviceName ws)
      = [Send ws (Text (FileNotFound "ASMP start.bat"))]
      /\ filter (fun e => is_job e) (handleDeviceNameAction rt w deviceName ws) = []).
Proof.
  intros Hperm. unfold handleDeviceNameAction.
  rewrite findInCommonDirs_joined by done.
  rewrite !filter_app.
  destruct (probes_started_filters w "ASMP start.bat") as (_ & -> & ->).
  rewrite !app_nil_l.
  by destruct (after_probes_events rt w deviceName ws
                 (last_found rt VNull
                    (probe w "ASMP start.bat" <$> completion w)) _ eq_refl)
    as [_ H].
Qed.

Lemma one_search_reply_witness :
  (exists dir,
     truthy dir = true
     /\ filter (fun e => is_search_reply e)
          (handleDeviceNameAction Sample.rt Sample.w (VStr "DEV1") 7)
        = [Send 7 (Text (FileFound "ASMP start.bat" dir))]
     /\ filter (fun e => is_job e)
          (handleDeviceNameAction Sample.rt Sample.w (VStr "DEV1") 7)
        = [Job dir (VStr "DEV1")])
  \/ (filter (fun e => is_search_reply e)
        (handleDeviceNameAction Sample.rt Sample.w (VStr "DEV1") 7)
      = [Send 7 (Text (FileNotFound "ASMP start.bat"))]
      /\ filter (fun e => is_job e)
           (handleDeviceNameAction Sample.rt Sample.w (VStr "DEV1") 7) = []).
Proof.
  apply (one_search_reply Sample.rt Sample.w (VStr "DEV1") 7).
  by apply (bool_decide_unpack _).
Defined.

(** A probe that matched decides: when the matching probe that finishes
    last stores a directory, the peer is told [fileFound] with it, the build
    runs on it with the device name of the request, and the full scan is
    not started. *)
Theorem probe_match_skips_scan (rt : runtime) (w : world) (deviceName : value)
    (ws : peer) (before after : list nat) (i : nat) :
  completion w ≡ₚ seq 0 (length (getCommonDirectories w)) ->
  completion w = before ++ i :: after ->
  probe_match rt (probe w "ASMP start.bat" i) = true ->
  (forall j, j ∈ after -> probe_match rt (probe w "ASMP start.bat" j) = false) ->
  truthy (probe_dir rt (probe w "ASMP start.bat" i)) = true ->
  handleDeviceNameAction rt w deviceName ws
  = probes_started w "ASMP start.bat"
    ++ Send ws (Text (FileFound "ASMP start.bat"
                        (probe_dir rt (probe w "ASMP start.bat" i))))
       :: (createAndSendZip w (probe_dir rt (probe w "ASMP start.bat" i))
             deviceName).1.
Proof.
  intros Hperm Hsplit Hi Hafter Hdir. unfold handleDeviceNameAction.
  rewrite (findInCommonDirs_last_match rt w "ASMP start.bat" _ before after i)
    by done.
  by rewrite Hdir.
Qed.

Lemma probe_match_skips_scan_witness :
  handleDeviceNameAction Sample.rt Sample.w_two (VStr "DEV1") 7
  = probes_started Sample.w_two "ASMP start.bat"
    ++ Send 7 (Text (FileFound "ASMP start.bat"
                       (probe_dir Sample.rt (probe Sample.w_two "ASMP start.bat" 5))))
       :: (createAndSendZip Sample.w_two
             (probe_dir Sample.rt (probe Sample.w_two "ASMP start.bat" 5))
             (VStr "DEV1")).1.
Proof.
  apply (probe_match_skips_scan Sample.rt Sample.w_two (VStr "DEV1") 7
           [0; 1; 2; 3; 4] [] 5).
  - reflexivity.
  - reflexivity.
  - reflexivity.
  - intros j Hj. by apply elem_of_nil in Hj.
  - reflexivity.
Defined.

(** No probe matches and the scan fails or prints no line: the peer gets
    [fileNotFound] and nothing else happens, in particular no build. *)
Theorem scan_without_result_not_found (rt : runtime) (w : world)
    (deviceName : value) (ws : peer) :
  completion w ≡ₚ seq 0 (length (getCommonDirectories w)) ->
  (forall j, j < length (getCommonDirectories w) ->
     probe_match rt (probe w "ASMP start.bat" j) = false) ->
  error (get_childitem w "ASMP start.bat") = true
  \/ scan_lines rt (get_childitem w "ASMP start.bat") = [] ->
  handleDeviceNameAction rt w deviceName ws
  = probes_started w "ASMP start.bat"
    ++ [ Exec (GetChildItem "ASMP start.bat");
         Send ws (Text (FileNotFound "ASMP start.bat")) ].
Proof.
  intros Hperm Hnone Hscan. unfold handleDeviceNameAction.
  rewrite findInCommonDirs_joined by done.
  rewrite last_found_none; simpl.
  - unfold findFileOnDisk. fold (scan_lines rt (get_childitem w "ASMP start.bat")).
    destruct (error (get_childitem w "ASMP start.bat")) eqn:E; [done|].
    destruct Hscan as [? | ->]; done.
  - intros r (j & -> & Hj)%list_elem_of_fmap. apply Hnone.
    by apply (completion_valid w (completion w)).
Qed.

Lemma scan_without_result_not_found_witness :
  handleDeviceNameAction Sample.rt Sample.w_none (VStr "DEV1") 7
  = probes_started Sample.w_none "ASMP start.bat"
    ++ [ Exec (GetChildItem "ASMP start.bat");
         Send 7 (Text (FileNotFound "ASMP start.bat")) ].
Proof.
  apply (scan_without_result_not_found Sample.rt Sample.w_none (VStr "DEV1") 7).
  - by apply (bool_decide_unpack _).
  - intros j Hj. reflexivity.
  - left. reflexivity.
Defined.

(** No probe matches and the scan prints lines: the first line that is not
    empty decides.  The peer is told [fileFound] with the directory of that
    line, and the build runs on it with the device name of the request. *)
Theorem scan_first_line_decides (rt : runtime) (w : world) (deviceName : value)
    (ws : peer) (first : string) (others : list string) :
  completion w ≡ₚ seq 0 (length (getCommonDirectories w)) ->
  (forall j, j < length (getCommonDirectories w) ->
     probe_match rt (probe w "ASMP start.bat" j) = false) ->
  error (get_childitem w "ASMP start.bat") = false ->
  scan_lines rt (get_childitem w "ASMP start.bat") = first :: others ->
  truthy (VStr (dirname rt first)) = true ->
  handleDeviceNameAction rt w deviceName ws
  = probes_started w "ASMP start.bat"
    ++ Exec (GetChildItem "ASMP start.bat")
       :: Send ws (Text (FileFound "ASMP start.bat" (VStr (dirname rt first))))
       :: (createAndSendZip w (VStr (dirname rt first)) deviceName).1.
Proof.
  intros Hperm Hnone Herror Hlines Hdir. unfold handleDeviceNameAction.
  rewrite findInCommonDirs_joined by done.
  rewrite last_found_none; simpl.
  - unfold findFileOnDisk. fold (scan_lines rt (get_childitem w "ASMP start.bat")).
    rewrite Herror, Hlines. by rewrite Hdir.
  - intros r (j & -> & Hj)%list_elem_of_fmap. apply Hnone.
    by apply (completion_valid w (completion w)).
Qed.

Lemma scan_first_line_decides_witness :
  handleDeviceNameAction Cases.rt Cases.w_scan (VStr "DEV1") 7
  = probes_started Cases.w_scan "ASMP start.bat"
    ++ Exec (GetChildItem "ASMP start.bat")
       :: Send 7 (Text (FileFound "ASMP start.bat" (VStr "/d")))
       :: (createAndSendZip Cases.w_scan (VStr "/d") (VStr "DEV1")).1.
Proof.
  apply (scan_first_line_decides Cases.rt Cases.w_scan (VStr "DEV1") 7
           "/d/ASMP start.bat" ["/z/ASMP start.bat"]).
  - by apply (bool_decide_unpack _).
  - intros j Hj. reflexivity.
  - reflexivity.
  - vm_compute. reflexivity.
  - reflexivity.
Defined.

(** ** MessageRouter *)

(** A message whose [type] is [filePath] is a direct-path request whatever
    else it carries: no child process is started and nothing is said about a
    search; exactly one build is entered, on the [filePath] of the message
    and with [null] as device name, also when the message has an [action]
    and a [deviceName]. *)
Theorem direct_path_never_searches (rt : runtime) (w : world) (msg : string)
    (ws : peer) (data : value) :
  JSON_parse rt msg = Ok data ->
  nullish data = false ->
  direct_path_shape data = true ->
  filter (fun e => is_exec e) (handleWebSocketMessage rt w msg ws) = []
  /\ filter (fun e => is_search_reply e) (handleWebSocketMessage rt w msg ws) = []
  /\ filter (fun e => is_job e) (handleWebSocketMessage rt w msg ws)
     = [Job (field data "filePath") VNull].
Proof.
  intros Hparse Hdata Hshape.
  rewrite (handle_direct_path rt w msg ws data Hparse Hdata Hshape).
  destruct (build_events w (field data "filePath") VNull)
    as (Hjob & Hreply & Hexec & _).
  rewrite !filter_app, Hjob, Hreply, Hexec. done.
Qed.

Lemma direct_path_never_searches_witness :
  filter (fun e => is_exec e)
    (handleWebSocketMessage Cases.rt Sample.w Cases.mixed_message 7) = []
  /\ filter (fun e => is_search_reply e)
       (handleWebSocketMessage Cases.rt Sample.w Cases.mixed_message 7) = []
  /\ filter (fun e => is_job e)
       (handleWebSocketMessage Cases.rt Sample.w Cases.mixed_message 7)
     = [Job (field (VObj {[ "type" := VStr "filePath"; "filePath" := VStr "/d";
                            "action" := VStr "sendDeviceName";
                            "deviceName" := VStr "DEV1" ]}) "filePath") VNull].
Proof.
  apply (direct_path_never_searches Cases.rt Sample.w Cases.mixed_message 7);
    vm_compute; reflexivity.
Defined.

(** A direct-path request whose [filePath] is missing or is not a string
    fails before any file is looked at: the peer gets one error status and
    nothing is sent to anyone else. *)
Theorem direct_path_without_path (rt : runtime) (w : world) (msg : string)
    (ws : peer) (data : value) :
  JSON_parse rt msg = Ok data ->
  nullish data = false ->
  direct_path_shape data = true ->
  is_string (field data "filePath") = false ->
  exists m,
    handleWebSocketMessage rt w msg ws
    = [ Job (field data "filePath") VNull;
        Send ws (Text (Status false m)) ].
Proof.
  intros Hparse Hdata Hshape Hpath.
  rewrite (handle_direct_path rt w msg ws data Hparse Hdata Hshape).
  unfold createAndSendZip, zip_entries.
  destruct (field data "filePath"); try done; by eexists.
Qed.

Lemma direct_path_without_path_witness :
  exists m,
    handleWebSocketMessage Cases.rt Sample.w Cases.bare_message 7
    = [ Job (field (VObj {[ "type" := VStr "filePath" ]}) "filePath") VNull;
        Send 7 (Text (Status false m)) ].
Proof.
  apply (direct_path_without_path Cases.rt Sample.w Cases.bare_message 7);
    vm_compute; reflexivity.
Defined.


(** ** ArchiveBuilder: the order of the entries *)

Lemma rule_entries_folder (w : world) (base folder extension : string)
    (deviceName : value) :
  Forall (fun e => exists file, e = entry_of base folder file)
         (rule_entries w base folder extension deviceName).
Proof.
  apply Forall_forall. intros e (file & -> & _)%elem_of_rule_entries.
  by exists file.
Qed.

(** The three folders are archived one after the other: in a built archive
    the entries of [out] come first, then those of
    [_inputs_severin/tables], then those of [temp]. *)
Theorem archive_order (w : world) (base : string) (deviceName : value)
    (zip : list entry) :
  zip_entries w (VStr base) deviceName = Ok zip ->
  exists from_out from_tables from_temp,
    zip = from_out ++ from_tables ++ from_temp
    /\ Forall (fun e => exists file, e = entry_of base "out" file) from_out
    /\ Forall (fun e => exists file,
                 e = entry_of base "_inputs_severin/tables" file) from_tables
    /\ Forall (fun e => exists file, e = entry_of base "temp" file) from_temp.
Proof.
  intros (base' & [= <-] & ->)%zip_entries_ok.
  eexists _, _, _. split; [done|].
  repeat split; apply rule_entries_folder.
Qed.

Lemma archive_order_witness :
  exists from_out from_tables from_temp,
    [entry_of "/d" "out" "DEV1-a.txt"; entry_of "/d" "temp" "x.net"]
    = from_out ++ from_tables ++ from_temp
    /\ Forall (fun e => exists file, e = entry_of "/d" "out" file) from_out
    /\ Forall (fun e => exists file,
                 e = entry_of "/d" "_inputs_severin/tables" file) from_tables
    /\ Forall (fun e => exists file, e = entry_of "/d" "temp" file) from_temp.
Proof.
  apply (archive_order Sample.w "/d" (VStr "DEV1")).
  vm_compute. reflexivity.
Defined.
